(** * arcade-android: the native event pump of [main.cpp]

    The program is embedded as interaction trees over the calls it makes
    to the platform: the log sink, the looper, and the fields of the
    [android_app] handle.  An executable, step-bounded interpreter runs
    the trees against a model of the platform state and records every
    log record and every poll call in a trace; it agrees with the
    library's [interp_state] on every run that returns. *)

From Stdlib Require Import ZArith List String Lia Bool.
From ITree Require Import ITree ITreeFacts Events.State Events.StateFacts.
Import ListNotations.
Import ITreeNotations.
Local Open Scope string_scope.
Local Open Scope list_scope.
Local Open Scope itree_scope.
Local Open Scope Z_scope.

(* ===================================================================== *)
(** * Platform constants *)
(* ===================================================================== *)

(** Modelled from the spec: the platform constants the source names but
    does not define; the headers it includes ([<android/log.h>],
    [<android_native_app_glue.h>]) are not in the repository.  The spec
    tells informational from verbose severity, window-available from
    window-unavailable and from every other command, motion from every
    other event type, and a negative poll status from an event; the
    numbers are those of the platform headers. *)
Module NDK.
Definition ANDROID_LOG_VERBOSE : Z := 2.
Definition ANDROID_LOG_INFO : Z := 4.

Definition AINPUT_EVENT_TYPE_KEY : Z := 1.
Definition AINPUT_EVENT_TYPE_MOTION : Z := 2.

Definition APP_CMD_INIT_WINDOW : Z := 1.
Definition APP_CMD_TERM_WINDOW : Z := 2.
Definition APP_CMD_GAINED_FOCUS : Z := 6.
Definition APP_CMD_DESTROY : Z := 15.

Definition ALOOPER_POLL_WAKE : Z := -1.
Definition ALOOPER_POLL_CALLBACK : Z := -2.
Definition ALOOPER_POLL_TIMEOUT : Z := -3.
Definition ALOOPER_POLL_ERROR : Z := -4.

Definition LOOPER_ID_MAIN : Z := 1.
Definition LOOPER_ID_INPUT : Z := 2.
End NDK.
Import NDK.

(** [kLogTag], main.cpp line 5. *)
Definition kLogTag : string := "arcade-native".

(* ===================================================================== *)
(** * Data model *)
(* ===================================================================== *)

(** An input event is opaque to the program; the only thing it reads is
    the type tag, through [AInputEvent_getType]. *)
Record AInputEvent : Type := mkInputEvent { AInputEvent_getType : Z }.

(** What the looper hands back in [outData]: the poll source of the glue
    that became ready, together with what its [process] routine will read
    from the operating system (the next command of the command pipe, or
    the input events queued at that moment). *)
Inductive android_poll_source : Type :=
| CmdSource (cmd : Z)
| InputSource (queued : list AInputEvent).

(** Result of one [ALooper_pollOnce] call: the returned [int] and the
    pointer written to [source] ([None] is the null pointer). *)
Record poll_result : Type := mkPoll {
  poll_status : Z;
  poll_source : option android_poll_source
}.

(** Function pointers that fit the two callback slots.  The program
    defines one function of each signature. *)
Inductive cmd_callback : Type := Fn_handleAppCommand.
Inductive input_callback : Type := Fn_handleInputEvent.

(** The fields of [android_app] the program touches. *)
Record android_app : Type := mkApp {
  onAppCmd : option cmd_callback;
  onInputEvent : option input_callback;
  destroyRequested : Z
}.

(* ===================================================================== *)
(** * Calls to the platform *)
(* ===================================================================== *)

Variant pumpE : Type -> Type :=
| LogPrint (prio : Z) (tag msg : string) : pumpE unit
| PollOnce : pumpE poll_result
| StoreOnAppCmd (f : option cmd_callback) : pumpE unit
| StoreOnInputEvent (f : option input_callback) : pumpE unit
| LoadOnAppCmd : pumpE (option cmd_callback)
| LoadOnInputEvent : pumpE (option input_callback)
| StoreDestroyRequested (v : Z) : pumpE unit
| LoadDestroyRequested : pumpE Z.

(** [__android_log_print(prio, tag, msg)]; its [int] result is dropped
    at every call site. *)
Definition __android_log_print (prio : Z) (tag msg : string) : itree pumpE unit :=
  ITree.trigger (LogPrint prio tag msg).

(** [ALooper_pollOnce(0, nullptr, &events, &source)]: the only way the
    program calls it.  The timeout is 0, so the call never waits; [events]
    is written but never read. *)
Definition ALooper_pollOnce : itree pumpE poll_result :=
  ITree.trigger PollOnce.

(* ===================================================================== *)
(** * The program *)
(* ===================================================================== *)

(** main.cpp lines 7-18.  The [app] argument is unused. *)
Definition handleAppCommand (cmd : Z) : itree pumpE unit :=
  if cmd =? APP_CMD_INIT_WINDOW then
    __android_log_print ANDROID_LOG_INFO kLogTag "Window initialized"
  else if cmd =? APP_CMD_TERM_WINDOW then
    __android_log_print ANDROID_LOG_INFO kLogTag "Window terminated"
  else
    Ret tt.

(** main.cpp lines 20-25. *)
Definition handleInputEvent (event : AInputEvent) : itree pumpE Z :=
  (if AInputEvent_getType event =? AINPUT_EVENT_TYPE_MOTION then
     __android_log_print ANDROID_LOG_VERBOSE kLogTag "Motion input event"
   else
     Ret tt) ;;
  Ret 0.

(** How a [while] body leaves: fall out of the inner loop ([Break], the
    poll condition failed) or leave the function ([Return]). *)
Inductive drain_exit : Type := Break | Return.

Section Pump.

(** The routine behind [source->process]: code of the platform, reached
    through a pointer stored in the poll source. *)
Variable process : android_poll_source -> itree pumpE unit.

(** main.cpp lines 39-41: [if (source != nullptr) source->process(app, source);] *)
Definition dispatch (source : option android_poll_source) : itree pumpE unit :=
  match source with
  | Some src => process src
  | None => Ret tt
  end.

(** main.cpp lines 43-46: the test of [app->destroyRequested] and the
    early [return]. *)
Definition check_destroy : itree pumpE (unit + drain_exit) :=
  d <- ITree.trigger LoadDestroyRequested ;;
  if negb (d =? 0) then
    __android_log_print ANDROID_LOG_INFO kLogTag "Destroy requested, exiting" ;;
    Ret (inr Return)
  else
    Ret (inl tt).

(** One test of the inner [while] condition and, when the poll status is
    not negative, one pass through its body (main.cpp lines 38-47). *)
Definition drain_step (_ : unit) : itree pumpE (unit + drain_exit) :=
  p <- ALooper_pollOnce ;;
  if poll_status p >=? 0 then
    dispatch (poll_source p) ;;
    check_destroy
  else
    Ret (inr Break).

(** The inner [while] (lines 38-47). *)
Definition drain_loop : itree pumpE drain_exit :=
  ITree.iter drain_step tt.

(** One pass through the body of [while (true)] (lines 37-50). *)
Definition pump_step (_ : unit) : itree pumpE (unit + unit) :=
  e <- drain_loop ;;
  match e with
  | Return => Ret (inr tt)
  | Break => Ret (inl tt)
  end.

Definition pump_loop : itree pumpE unit :=
  ITree.iter pump_step tt.

(** main.cpp lines 28-51. *)
Definition android_main : itree pumpE unit :=
  ITree.trigger (StoreOnAppCmd (Some Fn_handleAppCommand)) ;;
  ITree.trigger (StoreOnInputEvent (Some Fn_handleInputEvent)) ;;
  __android_log_print ANDROID_LOG_INFO kLogTag "Native loop started" ;;
  pump_loop.

End Pump.

(* ===================================================================== *)
(** * The platform's poll sources *)
(* ===================================================================== *)

(** A call through a callback slot runs the function the pointer names. *)
Definition call_cmd_callback (f : cmd_callback) (cmd : Z) : itree pumpE unit :=
  match f with Fn_handleAppCommand => handleAppCommand cmd end.

Definition call_input_callback (f : input_callback) (event : AInputEvent)
  : itree pumpE Z :=
  match f with Fn_handleInputEvent => handleInputEvent event end.

(** Modelled from the spec: the processing routine of the command poll
    source, which belongs to the platform glue and is not in the
    repository.  It "internally routes to 4.1": the command goes to the
    registered command handler.  The destroy-requested flag is "set by the
    OS": the glue sets it when the command is the destroy command, before
    the handler sees the command. *)
Definition process_cmd (cmd : Z) : itree pumpE unit :=
  (if cmd =? APP_CMD_DESTROY then
     ITree.trigger (StoreDestroyRequested 1)
   else
     Ret tt) ;;
  f <- ITree.trigger LoadOnAppCmd ;;
  match f with
  | Some fn => call_cmd_callback fn cmd
  | None => Ret tt
  end.

(** Modelled from the spec: the processing routine of the input poll
    source, which belongs to the platform glue and is not in the
    repository.  It "internally routes to 4.2": every queued input event
    goes to the registered input handler, whose status code the glue hands
    back to the input queue. *)
Fixpoint process_input (queued : list AInputEvent) : itree pumpE unit :=
  match queued with
  | [] => Ret tt
  | event :: rest =>
      f <- ITree.trigger LoadOnInputEvent ;;
      match f with
      | Some fn => handled <- call_input_callback fn event ;; Ret tt
      | None => Ret tt
      end ;;
      process_input rest
  end.

(** Modelled from the spec: "that source's own processing routine". *)
Definition glue_process (source : android_poll_source) : itree pumpE unit :=
  match source with
  | CmdSource cmd => process_cmd cmd
  | InputSource queued => process_input queued
  end.

(* ===================================================================== *)
(** * The platform state and the interpreter *)
(* ===================================================================== *)

(** What an observer of the process sees: log records and poll calls, in
    the order they happen. *)
Inductive os_call : Type :=
| CallLog (prio : Z) (tag msg : string)
| CallPoll (status : Z).

Record World : Type := mkWorld {
  app : android_app;
  polls : nat;
  trace : list os_call
}.

Definition emit (c : os_call) (w : World) : World :=
  mkWorld (app w) (polls w) (trace w ++ [c]).

Definition set_app (a : android_app) (w : World) : World :=
  mkWorld a (polls w) (trace w).

(** The state after one poll call: the call is counted and recorded. *)
Definition polled (st : Z) (w : World) : World :=
  mkWorld (app w) (S (polls w)) (trace w ++ [CallPoll st]).

Section Interpreter.

(** What the looper answers to its n-th call (counted from 0). *)
Variable looper : nat -> poll_result.

Definition os_handle {T} (e : pumpE T) (w : World) : World * T :=
  match e in pumpE T return World * T with
  | LogPrint prio tag msg => (emit (CallLog prio tag msg) w, tt)
  | PollOnce =>
      let p := looper (polls w) in (polled (poll_status p) w, p)
  | StoreOnAppCmd f =>
      (set_app (mkApp f (onInputEvent (app w)) (destroyRequested (app w))) w, tt)
  | StoreOnInputEvent f =>
      (set_app (mkApp (onAppCmd (app w)) f (destroyRequested (app w))) w, tt)
  | LoadOnAppCmd => (w, onAppCmd (app w))
  | LoadOnInputEvent => (w, onInputEvent (app w))
  | StoreDestroyRequested v =>
      (set_app (mkApp (onAppCmd (app w)) (onInputEvent (app w)) v) w, tt)
  | LoadDestroyRequested => (w, destroyRequested (app w))
  end.

(** Where a run stands when the interpreter stops: the program has
    returned [r] in state [w] with [left] steps to spare, or the steps
    ran out in state [w]. *)
Inductive outcome (R : Type) : Type :=
| Done (left : nat) (w : World) (r : R)
| Running (w : World).
Arguments Done {R}.
Arguments Running {R}.

(** Run at most [fuel] platform calls and loop back-edges. *)
Fixpoint exec {R} (fuel : nat) (t : itree pumpE R) (w : World) : outcome R :=
  match observe t with
  | RetF r => Done fuel w r
  | TauF t' =>
      match fuel with
      | O => Running w
      | S n => exec n t' w
      end
  | VisF e k =>
      match fuel with
      | O => Running w
      | S n => let (w', x) := os_handle e w in exec n (k x) w'
      end
  end.

Definition state_of {R} (o : outcome R) : World :=
  match o with
  | Done _ w _ => w
  | Running w => w
  end.

End Interpreter.

Arguments Done {R}.
Arguments Running {R}.


(** Sequencing of outcomes: go on from where the first part returned. *)
Definition and_then {A B} (o : outcome A) (f : nat -> World -> A -> outcome B)
  : outcome B :=
  match o with
  | Done n w x => f n w x
  | Running w => Running w
  end.

(** The same platform as a handler for the library's [interp_state]. *)
Definition os_interp (looper : nat -> poll_result)
  : pumpE ~> Monads.stateT World (itree void1) :=
  fun T e w => Ret (os_handle looper e w).

(* ===================================================================== *)
(** * States and loopers the statements speak of *)
(* ===================================================================== *)

(** The last record the pump writes. *)
Definition destroy_record : os_call :=
  CallLog ANDROID_LOG_INFO kLogTag "Destroy requested, exiting".

Definition installed (a : android_app) : android_app :=
  mkApp (Some Fn_handleAppCommand) (Some Fn_handleInputEvent) (destroyRequested a).

Definition started (w : World) : World :=
  emit (CallLog ANDROID_LOG_INFO kLogTag "Native loop started")
       (set_app (installed (app w)) w).

(** The record the command handler writes for the two window commands. *)
Definition window_message (cmd : Z) : string :=
  if cmd =? APP_CMD_INIT_WINDOW then "Window initialized" else "Window terminated".

(** Whether processing the source handed back by a poll sets the
    destroy-requested flag. *)
Definition delivers_destroy (source : option android_poll_source) : bool :=
  match source with
  | Some (CmdSource cmd) => cmd =? APP_CMD_DESTROY
  | _ => false
  end.

(** A process freshly created by the platform: no callbacks, flag clear,
    nothing polled or logged yet. *)
Definition boot : World := mkWorld (mkApp None None 0) 0 [].

(** A looper with nothing queued. *)
Definition idle_looper (_ : nat) : poll_result :=
  mkPoll ALOOPER_POLL_TIMEOUT None.

(** A looper that hands back the destroy command on every call. *)
Definition destroy_looper (_ : nat) : poll_result :=
  mkPoll LOOPER_ID_MAIN (Some (CmdSource APP_CMD_DESTROY)).

(** The state after [n] successive poll calls that did nothing but
    return. *)
Fixpoint polled_times (looper : nat -> poll_result) (n : nat) (w : World) : World :=
  match n with
  | O => w
  | S n' => polled_times looper n' (polled (poll_status (looper (polls w))) w)
  end.

(** A process whose flag is already set when the entry point is called. *)
Definition flagged : World := mkWorld (mkApp None None 1) 0 [].

(** Two empty polls, then a key event. *)
Definition late_key_looper (n : nat) : poll_result :=
  if (n <? 2)%nat then mkPoll ALOOPER_POLL_TIMEOUT None
  else mkPoll LOOPER_ID_INPUT
         (Some (InputSource [mkInputEvent AINPUT_EVENT_TYPE_KEY])).

(** The head of the inner loop reached after [n] turns none of which
    makes the pump leave: a turn whose poll status is negative, where
    nothing is processed and the flag is not read, or a turn that drains
    an event whose processing returns within [fuel] steps and leaves the
    flag at 0.  [None] when one of the [n] turns does not fit. *)
Fixpoint quiet_heads (process : android_poll_source -> itree pumpE unit)
  (looper : nat -> poll_result) (fuel n : nat) (w : World) : option World :=
  match n with
  | O => Some w
  | S n' =>
      let p := looper (polls w) in
      let w1 := polled (poll_status p) w in
      if poll_status p >=? 0 then
        match exec looper fuel (dispatch process (poll_source p)) w1 with
        | Done _ w2 _ =>
            if destroyRequested (app w2) =? 0 then
              quiet_heads process looper fuel n' w2
            else None
        | Running _ => None
        end
      else quiet_heads process looper fuel n' w1
  end.

(** C6 as the spec states it: whenever a run of the entry point is in a
    state whose flag is not 0, the run goes on to return, and its poll
    count at the return is the poll count of that state. *)
Definition flag_stops_polling_claim : Prop :=
  forall (process : android_poll_source -> itree pumpE unit)
         (looper : nat -> poll_result) (w : World) (n : nat),
    destroyRequested (app (state_of (exec looper n (android_main process) w))) <> 0 ->
    exists m left w',
      exec looper m (android_main process) w = Done left w' tt /\
      polls w' = polls (state_of (exec looper n (android_main process) w)).

(** The events of the end-to-end scenario, one per poll: the
    window-available command, one motion input event, the destroy
    command.  After them the looper has nothing queued. *)
Definition scenario : list poll_result :=
  [ mkPoll LOOPER_ID_MAIN (Some (CmdSource APP_CMD_INIT_WINDOW));
    mkPoll LOOPER_ID_INPUT
      (Some (InputSource [mkInputEvent AINPUT_EVENT_TYPE_MOTION]));
    mkPoll LOOPER_ID_MAIN (Some (CmdSource APP_CMD_DESTROY)) ].

Definition scripted (events : list poll_result) (n : nat) : poll_result :=
  nth n events (mkPoll ALOOPER_POLL_TIMEOUT None).

(** The severities of the log records of a trace, in order. *)
Definition severities (t : list os_call) : list Z :=
  flat_map (fun c => match c with
                     | CallLog prio _ _ => [prio]
                     | CallPoll _ => []
                     end) t.

(** The state the scenario ends in. *)
Definition scenario_end : World :=
  mkWorld (mkApp (Some Fn_handleAppCommand) (Some Fn_handleInputEvent) 1) 3
    [ CallLog ANDROID_LOG_INFO kLogTag "Native loop started";
      CallPoll LOOPER_ID_MAIN;
      CallLog ANDROID_LOG_INFO kLogTag "Window initialized";
      CallPoll LOOPER_ID_INPUT;
      CallLog ANDROID_LOG_VERBOSE kLogTag "Motion input event";
      CallPoll LOOPER_ID_MAIN;
      CallLog ANDROID_LOG_INFO kLogTag "Destroy requested, exiting" ].

(** C8 as the spec states it: the run of the entry point on the scenario
    returns, and the severities of its log records are informational,
    verbose, informational. *)
Definition scenario_three_records_claim : Prop :=
  exists n left w',
    exec (scripted scenario) n (android_main glue_process) boot = Done left w' tt /\
    severities (trace w')
    = [ANDROID_LOG_INFO; ANDROID_LOG_VERBOSE; ANDROID_LOG_INFO].

(* ===================================================================== *)
(** * Judgements and expected traces *)
(* ===================================================================== *)

(** [holds looper P t Q I]: started in a state of [P], the run of [t] is
    in a state of [I] whenever it is stopped short, and in a state of
    [Q r] when it has returned [r]. *)
Definition holds {R} (looper : nat -> poll_result)
  (P : World -> Prop) (t : itree pumpE R)
  (Q : R -> World -> Prop) (I : World -> Prop) : Prop :=
  forall n w,
    P w ->
    match exec looper n t w with
    | Done _ w' r => Q r w'
    | Running w' => I w'
    end.

(** Every state of the run of [t] has a handle of [P], given that the
    first one has. *)
Definition keeps_handle {R} (looper : nat -> poll_result)
  (P : android_app -> Prop) (t : itree pumpE R) : Prop :=
  holds looper (fun w => P (app w)) t (fun _ w => P (app w)) (fun w => P (app w)).

(** The trace has grown from [t0] by calls that all pass [ok]. *)
Definition grown_by (ok : os_call -> bool) (t0 : list os_call) (w : World) : Prop :=
  exists l, trace w = t0 ++ l /\ forallb ok l = true.

(** The state in which the pump leaves: what was written before the last
    record passes [ok], and the last record is the destroy record. *)
Definition left_by_destroy (ok : os_call -> bool) (t0 : list os_call) (w : World)
  : Prop :=
  exists l, trace w = t0 ++ l ++ [destroy_record] /\ forallb ok l = true.

(** A poll call, or a log record under the program's tag with one of the
    two severities the program uses. *)
Definition is_own_record (c : os_call) : bool :=
  match c with
  | CallLog prio tag _ =>
      String.eqb tag kLogTag
      && ((prio =? ANDROID_LOG_INFO) || (prio =? ANDROID_LOG_VERBOSE))
  | CallPoll _ => true
  end.

Definition is_destroy_record (c : os_call) : bool :=
  match c with
  | CallLog _ _ msg => String.eqb msg "Destroy requested, exiting"
  | CallPoll _ => false
  end.

(** Both callback slots hold the program's handlers. *)
Definition handlers_installed (a : android_app) : Prop :=
  onAppCmd a = Some Fn_handleAppCommand /\
  onInputEvent a = Some Fn_handleInputEvent.

(** The records the handlers write for what one poll source delivers. *)
Definition cmd_records (cmd : Z) : list os_call :=
  if (cmd =? APP_CMD_INIT_WINDOW) || (cmd =? APP_CMD_TERM_WINDOW) then
    [CallLog ANDROID_LOG_INFO kLogTag (window_message cmd)]
  else [].

Definition input_records (queued : list AInputEvent) : list os_call :=
  flat_map
    (fun event =>
       if AInputEvent_getType event =? AINPUT_EVENT_TYPE_MOTION then
         [CallLog ANDROID_LOG_VERBOSE kLogTag "Motion input event"]
       else [])
    queued.

Definition source_records (source : option android_poll_source) : list os_call :=
  match source with
  | Some (CmdSource cmd) => cmd_records cmd
  | Some (InputSource queued) => input_records queued
  | None => []
  end.

(** What one turn of the inner loop adds to the trace: the poll call and,
    when its status is not negative, the records of what it drained. *)
Definition turn_records (p : poll_result) : list os_call :=
  CallPoll (poll_status p)
  :: (if poll_status p >=? 0 then source_records (poll_source p) else []).

(** The state after the glue has processed [source] with the program's
    handlers installed. *)
Definition processed (source : option android_poll_source) (w : World) : World :=
  mkWorld
    (mkApp (onAppCmd (app w)) (onInputEvent (app w))
       (if delivers_destroy source then 1 else destroyRequested (app w)))
    (polls w)
    (trace w ++ source_records source).

(** The state after one turn that does not leave the pump. *)
Definition turn (looper : nat -> poll_result) (w : World) : World :=
  let p := looper (polls w) in
  if poll_status p >=? 0 then
    processed (poll_source p) (polled (poll_status p) w)
  else polled (poll_status p) w.

Fixpoint turns (looper : nat -> poll_result) (n : nat) (w : World) : World :=
  match n with
  | O => w
  | S n' => turns looper n' (turn looper w)
  end.

(** The answers of the looper to its calls number [from], ..., [from + n - 1]. *)
Definition upcoming (looper : nat -> poll_result) (from n : nat) : list poll_result :=
  List.map looper (List.seq from n).

(** Whether a poll that returns [p] while the flag reads [flag] beforehand
    makes the pump leave: it must drain something, and either the flag is
    already set or the drained command is the destroy command. *)
Definition turn_exits (flag : Z) (p : poll_result) : bool :=
  (poll_status p >=? 0)
  && (negb (flag =? 0) || delivers_destroy (poll_source p)).

Definition quiet_turns (flag : Z) (ps : list poll_result) : bool :=
  forallb (fun p => negb (turn_exits flag p)) ps.

(** A looper that drains, in this order, a gained-focus command, a key
    and a motion event in one batch, nothing, and the destroy command. *)
Definition session_looper : nat -> poll_result :=
  scripted
    [ mkPoll LOOPER_ID_MAIN (Some (CmdSource APP_CMD_GAINED_FOCUS));
      mkPoll LOOPER_ID_INPUT
        (Some (InputSource [mkInputEvent AINPUT_EVENT_TYPE_KEY;
                            mkInputEvent AINPUT_EVENT_TYPE_MOTION]));
      mkPoll ALOOPER_POLL_TIMEOUT None;
      mkPoll LOOPER_ID_MAIN (Some (CmdSource APP_CMD_DESTROY)) ].

(** A looper whose every poll reports an event without a poll source. *)
Definition null_source_looper (_ : nat) : poll_result :=
  mkPoll 0 None.

(* ===================================================================== *)
(** * Laws of the interpreter *)
(* ===================================================================== *)

Section ExecLaws.

Variable looper : nat -> poll_result.

Lemma exec_observe {R} (t u : itree pumpE R) n w :
  observe t = observe u -> exec looper n t w = exec looper n u w.
Proof.
  intros E. destruct n; simpl; rewrite E; reflexivity.
Qed.

Lemma exec_ret {R} (r : R) n w : exec looper n (Ret r) w = Done n w r.
Proof. destruct n; reflexivity. Qed.

Lemma exec_trigger {T} (e : pumpE T) n w :
  exec looper (S n) (ITree.trigger e) w
  = Done n (fst (os_handle looper e w)) (snd (os_handle looper e w)).
Proof.
  simpl. destruct (os_handle looper e w) as [w' x]. simpl.
  apply exec_ret.
Qed.

Lemma exec_bind {A B} (t : itree pumpE A) (k : A -> itree pumpE B) n :
  forall w,
    exec looper n (ITree.bind t k) w
    = and_then (exec looper n t w) (fun n' w' x => exec looper n' (k x) w').
Proof.
  revert t. induction n as [|n IH]; intros t w.
  - simpl. destruct (observe t) eqn:E; simpl; reflexivity.
  - simpl. destruct (observe t) eqn:E; simpl.
    + reflexivity.
    + apply IH.
    + destruct (os_handle looper e w) as [w' x]. apply IH.
Qed.

Lemma exec_iter {I R} (body : I -> itree pumpE (I + R)) (i : I) n w :
  exec looper n (ITree.iter body i) w
  = and_then (exec looper n (body i) w)
      (fun n' w' lr =>
         match lr with
         | inl j =>
             match n' with
             | O => Running w'
             | S m => exec looper m (ITree.iter body j) w'
             end
         | inr r => Done n' w' r
         end).
Proof.
  rewrite (exec_observe (ITree.iter body i)
             (ITree.bind (body i)
                (fun lr => match lr with
                           | inl j => Tau (ITree.iter body j)
                           | inr r => Ret r
                           end))) by reflexivity.
  rewrite exec_bind.
  destruct (exec looper n (body i) w) as [n' w' [j|r]|w']; simpl; try reflexivity.
  - destruct n'; reflexivity.
  - apply exec_ret.
Qed.

End ExecLaws.

Section ExecFuel.

Variable looper : nat -> poll_result.

Lemma exec_at_ret {R} (t : itree pumpE R) r n w :
  observe t = RetF r -> exec looper n t w = Done n w r.
Proof. intros E. destruct n; simpl; rewrite E; reflexivity. Qed.

(** Spare steps are handed back untouched. *)
Lemma exec_more {R} n : forall (t : itree pumpE R) w k w' r m,
    exec looper n t w = Done k w' r ->
    exec looper (n + m) t w = Done (k + m)%nat w' r.
Proof.
  induction n as [|n IH]; intros t w k w' r m H.
  - simpl in H. destruct (observe t) eqn:E; try discriminate.
    inversion H; subst. apply exec_at_ret. assumption.
  - simpl in H. simpl. destruct (observe t) eqn:E.
    + inversion H; subst. reflexivity.
    + apply IH. assumption.
    + destruct (os_handle looper e w) as [w1 x]. apply IH. assumption.
Qed.

Lemma exec_done_le {R} n : forall (t : itree pumpE R) w k w' r,
    exec looper n t w = Done k w' r -> (k <= n)%nat.
Proof.
  induction n as [|n IH]; intros t w k w' r H; simpl in H;
    destruct (observe t) eqn:E; try discriminate.
  - inversion H; lia.
  - inversion H; lia.
  - apply IH in H. lia.
  - destruct (os_handle looper e w) as [w1 x]. apply IH in H. lia.
Qed.

(** A run that returned returns the same with any other supply of steps
    that lets it return. *)
Lemma exec_deterministic {R} (t : itree pumpE R) w n1 k1 w1 r1 n2 k2 w2 r2 :
  exec looper n1 t w = Done k1 w1 r1 ->
  exec looper n2 t w = Done k2 w2 r2 ->
  w1 = w2 /\ r1 = r2.
Proof.
  intros H1 H2.
  apply (exec_more _ _ _ _ _ _ n2) in H1.
  apply (exec_more _ _ _ _ _ _ n1) in H2.
  rewrite (Nat.add_comm n2 n1) in H2. rewrite H1 in H2.
  inversion H2; auto.
Qed.

(** A run that returns is a run of the library's interpreter over
    [os_interp] with the same final state and result. *)
Lemma exec_interp_state {R} n : forall (t : itree pumpE R) w k w' r,
    exec looper n t w = Done k w' r ->
    interp_state (os_interp looper) t w ≈ Ret (w', r).
Proof.
  induction n as [|n IH]; intros t w k w' r H; simpl in H;
    destruct (observe t) eqn:E; try discriminate;
    rewrite (itree_eta t), E.
  - inversion H; subst. rewrite interp_state_ret. reflexivity.
  - inversion H; subst. rewrite interp_state_ret. reflexivity.
  - rewrite interp_state_tau, tau_eutt. eapply IH; eassumption.
  - rewrite interp_state_vis. unfold os_interp at 1.
    rewrite bind_ret_l, tau_eutt.
    destruct (os_handle looper e w) as [w1 x] eqn:Eh. simpl.
    eapply IH; eassumption.
Qed.

(** The platform only ever appends to the trace. *)
Lemma os_handle_trace {T} (e : pumpE T) w :
  exists l, trace (fst (os_handle looper e w)) = trace w ++ l.
Proof.
  destruct e; simpl; eauto; exists []; rewrite app_nil_r; reflexivity.
Qed.

Lemma exec_trace {R} n : forall (t : itree pumpE R) w,
    exists l, trace (state_of (exec looper n t w)) = trace w ++ l.
Proof.
  induction n as [|n IH]; intros t w; simpl.
  - exists []. rewrite app_nil_r. destruct (observe t); reflexivity.
  - destruct (observe t) eqn:E.
    + exists []. rewrite app_nil_r. reflexivity.
    + apply IH.
    + destruct (os_handle_trace e w) as [l1 Hl1].
      destruct (os_handle looper e w) as [w1 x]. simpl in Hl1.
      destruct (IH (k x) w1) as [l2 Hl2].
      exists (l1 ++ l2). rewrite Hl2, Hl1, app_assoc. reflexivity.
Qed.

End ExecFuel.

(* ===================================================================== *)
(** * One turn of the pump *)
(* ===================================================================== *)

Section PumpLaws.

Variable process : android_poll_source -> itree pumpE unit.
Variable looper : nat -> poll_result.

Lemma exec_check_destroy n w :
  exec looper n check_destroy w
  = match n with
    | O => Running w
    | S n1 =>
        if destroyRequested (app w) =? 0 then Done n1 w (inl tt)
        else match n1 with
             | O => Running w
             | S n2 => Done n2 (emit destroy_record w) (inr Return)
             end
    end.
Proof.
  unfold check_destroy. rewrite exec_bind.
  destruct n as [|n1]; [reflexivity|].
  rewrite exec_trigger. simpl.
  destruct (destroyRequested (app w) =? 0); simpl.
  - apply exec_ret.
  - rewrite exec_bind. unfold __android_log_print.
    destruct n1 as [|n2]; [reflexivity|].
    rewrite exec_trigger. simpl. apply exec_ret.
Qed.

Lemma exec_drain_step n w :
  exec looper (S n) (drain_step process tt) w
  = let p := looper (polls w) in
    let w1 := polled (poll_status p) w in
    if poll_status p >=? 0 then
      and_then (exec looper n (dispatch process (poll_source p)) w1)
        (fun n1 w2 _ => exec looper n1 check_destroy w2)
    else Done n w1 (inr Break).
Proof.
  unfold drain_step, ALooper_pollOnce. rewrite exec_bind, exec_trigger. simpl.
  destruct (poll_status (looper (polls w)) >=? 0).
  - apply exec_bind.
  - apply exec_ret.
Qed.

Lemma exec_pump_loop n w :
  exec looper n (pump_loop process) w
  = and_then (exec looper n (drain_loop process) w)
      (fun n1 w1 e =>
         match e with
         | Return => Done n1 w1 tt
         | Break =>
             match n1 with
             | O => Running w1
             | S m => exec looper m (pump_loop process) w1
             end
         end).
Proof.
  unfold pump_loop at 1. rewrite exec_iter. unfold pump_step at 1.
  rewrite exec_bind.
  destruct (exec looper n (drain_loop process) w) as [n1 w1 [|]|w1]; simpl.
  - rewrite exec_ret. reflexivity.
  - rewrite exec_ret. reflexivity.
  - reflexivity.
Qed.

(** A negative poll status ends the inner loop and the outer loop turns
    once more. *)
Lemma drain_loop_negative n w :
  poll_status (looper (polls w)) < 0 ->
  exec looper (S n) (drain_loop process) w
  = Done n (polled (poll_status (looper (polls w))) w) Break.
Proof.
  intros H. unfold drain_loop. rewrite exec_iter, exec_drain_step. simpl.
  destruct (Z.geb_spec (poll_status (looper (polls w))) 0); [lia|].
  reflexivity.
Qed.

Lemma pump_loop_negative n w :
  poll_status (looper (polls w)) < 0 ->
  exec looper (S (S n)) (pump_loop process) w
  = exec looper n (pump_loop process)
      (polled (poll_status (looper (polls w))) w).
Proof.
  intros H. rewrite exec_pump_loop, drain_loop_negative by assumption.
  reflexivity.
Qed.

(** A drained event whose processing leaves the flag at 0: both loops
    are back at their heads. *)
Lemma drain_loop_continue n k w w1 :
  0 <= poll_status (looper (polls w)) ->
  exec looper n (dispatch process (poll_source (looper (polls w))))
    (polled (poll_status (looper (polls w))) w) = Done k w1 tt ->
  destroyRequested (app w1) = 0 ->
  forall m,
    exec looper (S (n + (2 + m))) (drain_loop process) w
    = exec looper (k + m) (drain_loop process) w1.
Proof.
  intros Hst Hrun Hflag m.
  unfold drain_loop at 1. rewrite exec_iter, exec_drain_step. cbv zeta.
  destruct (Z.geb_spec (poll_status (looper (polls w))) 0); [|lia].
  rewrite (exec_more _ _ _ _ _ _ _ (2 + m) Hrun). cbn [and_then].
  rewrite exec_check_destroy.
  replace (k + (2 + m))%nat with (S (S (k + m))) by lia.
  rewrite Hflag. reflexivity.
Qed.

Lemma pump_loop_continue n k w w1 :
  0 <= poll_status (looper (polls w)) ->
  exec looper n (dispatch process (poll_source (looper (polls w))))
    (polled (poll_status (looper (polls w))) w) = Done k w1 tt ->
  destroyRequested (app w1) = 0 ->
  forall m,
    exec looper (S (n + (2 + m))) (pump_loop process) w
    = exec looper (k + m) (pump_loop process) w1.
Proof.
  intros Hst Hrun Hflag m.
  rewrite exec_pump_loop, (drain_loop_continue _ _ _ _ Hst Hrun Hflag).
  rewrite <- exec_pump_loop. reflexivity.
Qed.

(** A drained event after whose processing the flag is not 0. *)
Lemma drain_loop_exit n k w w1 :
  0 <= poll_status (looper (polls w)) ->
  exec looper n (dispatch process (poll_source (looper (polls w))))
    (polled (poll_status (looper (polls w))) w) = Done k w1 tt ->
  destroyRequested (app w1) <> 0 ->
  forall m,
    exec looper (S (n + (2 + m))) (drain_loop process) w
    = Done (k + m) (emit destroy_record w1) Return.
Proof.
  intros Hst Hrun Hflag m.
  unfold drain_loop at 1. rewrite exec_iter, exec_drain_step. cbv zeta.
  destruct (Z.geb_spec (poll_status (looper (polls w))) 0); [|lia].
  rewrite (exec_more _ _ _ _ _ _ _ (2 + m) Hrun). cbn [and_then].
  rewrite exec_check_destroy.
  replace (k + (2 + m))%nat with (S (S (k + m))) by lia.
  destruct (Z.eqb_spec (destroyRequested (app w1)) 0); [contradiction|].
  reflexivity.
Qed.

Lemma pump_loop_exit n k w w1 :
  0 <= poll_status (looper (polls w)) ->
  exec looper n (dispatch process (poll_source (looper (polls w))))
    (polled (poll_status (looper (polls w))) w) = Done k w1 tt ->
  destroyRequested (app w1) <> 0 ->
  forall m,
    exec looper (S (n + (2 + m))) (pump_loop process) w
    = Done (k + m) (emit destroy_record w1) tt.
Proof.
  intros Hst Hrun Hflag m.
  rewrite exec_pump_loop, (drain_loop_exit _ _ _ _ Hst Hrun Hflag).
  reflexivity.
Qed.

End PumpLaws.

Section MainLaws.

Variable process : android_poll_source -> itree pumpE unit.
Variable looper : nat -> poll_result.

Lemma exec_pump_loop_S F w :
  exec looper (S F) (pump_loop process) w
  = let p := looper (polls w) in
    let w1 := polled (poll_status p) w in
    if poll_status p >=? 0 then
      and_then (exec looper F (dispatch process (poll_source p)) w1)
        (fun K w2 _ =>
           match K with
           | O => Running w2
           | S K1 =>
               if destroyRequested (app w2) =? 0 then
                 match K1 with
                 | O => Running w2
                 | S K2 => exec looper K2 (pump_loop process) w2
                 end
               else
                 match K1 with
                 | O => Running w2
                 | S K2 =>
                     Done K2
                       (emit (CallLog ANDROID_LOG_INFO kLogTag
                                "Destroy requested, exiting") w2) tt
                 end
           end)
    else
      match F with
      | O => Running w1
      | S F1 => exec looper F1 (pump_loop process) w1
      end.
Proof.
  rewrite exec_pump_loop. unfold drain_loop at 1.
  rewrite exec_iter, exec_drain_step. cbv zeta.
  destruct (poll_status (looper (polls w)) >=? 0); cbn [and_then].
  - destruct (exec looper F _ _) as [K w2 []|w2]; cbn [and_then]; [|reflexivity].
    rewrite exec_check_destroy.
    destruct K as [|K1]; [reflexivity|].
    destruct (destroyRequested (app w2) =? 0); cbn [and_then].
    + destruct K1 as [|K2]; [reflexivity|].
      symmetry. apply exec_pump_loop.
    + destruct K1 as [|K2]; reflexivity.
  - destruct F; reflexivity.
Qed.

Lemma exec_android_main n w :
  exec looper (3 + n) (android_main process) w
  = exec looper n (pump_loop process) (started w).
Proof.
  unfold android_main, __android_log_print.
  rewrite exec_bind. replace (3 + n)%nat with (S (S (S n))) by reflexivity.
  rewrite exec_trigger. cbn [and_then].
  rewrite exec_bind, exec_trigger. cbn [and_then].
  rewrite exec_bind, exec_trigger. cbn [and_then].
  reflexivity.
Qed.

(** When the pump returns, it returns through the destroy branch. *)
Lemma pump_loop_done n : forall w k w',
    exec looper n (pump_loop process) w = Done k w' tt ->
    exists w1,
      destroyRequested (app w1) <> 0 /\
      w' = emit (CallLog ANDROID_LOG_INFO kLogTag "Destroy requested, exiting") w1.
Proof.
  induction n as [n IH] using lt_wf_ind. intros w k w' H.
  destruct n as [|F]; [discriminate H|].
  rewrite exec_pump_loop_S in H. cbv zeta in H.
  destruct (poll_status (looper (polls w)) >=? 0).
  - destruct (exec looper F _ _) as [K w2 []|w2] eqn:E; cbn [and_then] in H;
      [|discriminate].
    apply exec_done_le in E.
    destruct K as [|K1]; [discriminate|].
    destruct (Z.eqb_spec (destroyRequested (app w2)) 0).
    + destruct K1 as [|K2]; [discriminate|].
      apply (IH K2) in H; [assumption|lia].
    + destruct K1 as [|K2]; [discriminate|].
      inversion H; subst. exists w2. split; [assumption|reflexivity].
  - destruct F as [|F1]; [discriminate|].
    apply (IH F1) in H; [assumption|lia].
Qed.

(** With nothing but negative poll statuses the pump never returns. *)
Lemma pump_loop_idle n : forall w,
    (forall i, poll_status (looper i) < 0) ->
    exists w', exec looper n (pump_loop process) w = Running w'.
Proof.
  induction n as [n IH] using lt_wf_ind. intros w Hneg.
  destruct n as [|F]; [eexists; reflexivity|].
  rewrite exec_pump_loop_S. cbv zeta.
  destruct (Z.geb_spec (poll_status (looper (polls w))) 0).
  - specialize (Hneg (polls w)). lia.
  - destruct F as [|F1]; [eexists; reflexivity|].
    apply IH; [lia|assumption].
Qed.

End MainLaws.

Section HandlerLaws.

Variable looper : nat -> poll_result.

Lemma exec_handleAppCommand n w cmd :
  exec looper n (handleAppCommand cmd) w
  = if (cmd =? APP_CMD_INIT_WINDOW) || (cmd =? APP_CMD_TERM_WINDOW) then
      match n with
      | O => Running w
      | S m =>
          Done m (emit (CallLog ANDROID_LOG_INFO kLogTag (window_message cmd)) w) tt
      end
    else Done n w tt.
Proof.
  unfold handleAppCommand, window_message, __android_log_print.
  destruct (cmd =? APP_CMD_INIT_WINDOW); simpl orb.
  - destruct n; [reflexivity|]. rewrite exec_trigger. reflexivity.
  - destruct (cmd =? APP_CMD_TERM_WINDOW).
    + destruct n; [reflexivity|]. rewrite exec_trigger. reflexivity.
    + apply exec_ret.
Qed.

Lemma exec_handleInputEvent n w event :
  exec looper n (handleInputEvent event) w
  = if AInputEvent_getType event =? AINPUT_EVENT_TYPE_MOTION then
      match n with
      | O => Running w
      | S m =>
          Done m (emit (CallLog ANDROID_LOG_VERBOSE kLogTag "Motion input event") w) 0
      end
    else Done n w 0.
Proof.
  unfold handleInputEvent, __android_log_print. rewrite exec_bind.
  destruct (AInputEvent_getType event =? AINPUT_EVENT_TYPE_MOTION).
  - destruct n; [reflexivity|]. rewrite exec_trigger. cbn [and_then].
    apply exec_ret.
  - rewrite exec_ret. cbn [and_then]. apply exec_ret.
Qed.

(** Runs the straight-line part of a glue routine: binds are split, each
    platform call is answered by [os_handle], and the callback slot is read
    through the equation [Ef]. *)
Ltac run_glue Ef :=
  repeat first
    [ rewrite exec_bind
    | rewrite exec_trigger
    | rewrite exec_ret
    | rewrite Ef
    | progress cbn [and_then os_handle fst snd set_app app onAppCmd onInputEvent
                    call_cmd_callback call_input_callback] ].

(** The glue's routines return, make no poll call, and touch the flag
    only for the destroy command. *)
Lemma process_cmd_returns cmd w :
  exists c w1,
    (forall m, exec looper (c + m) (process_cmd cmd) w = Done m w1 tt) /\
    polls w1 = polls w /\
    destroyRequested (app w1)
    = (if cmd =? APP_CMD_DESTROY then 1 else destroyRequested (app w)).
Proof.
  unfold process_cmd.
  destruct (cmd =? APP_CMD_DESTROY) eqn:Ed.
  - apply Z.eqb_eq in Ed. subst cmd.
    destruct (onAppCmd (app w)) as [[]|] eqn:Ef.
    + exists 2%nat. eexists. split; [|split].
      * intros m. change (2 + m)%nat with (S (S m)). run_glue Ef.
        rewrite exec_handleAppCommand. reflexivity.
      * reflexivity.
      * reflexivity.
    + exists 2%nat. eexists. split; [|split].
      * intros m. change (2 + m)%nat with (S (S m)). run_glue Ef. reflexivity.
      * reflexivity.
      * reflexivity.
  - destruct (onAppCmd (app w)) as [[]|] eqn:Ef.
    + destruct ((cmd =? APP_CMD_INIT_WINDOW) || (cmd =? APP_CMD_TERM_WINDOW)) eqn:Er.
      * exists 2%nat. eexists. split; [|split].
        -- intros m. change (2 + m)%nat with (S (S m)). run_glue Ef.
           rewrite exec_handleAppCommand, Er. reflexivity.
        -- reflexivity.
        -- reflexivity.
      * exists 1%nat. eexists. split; [|split].
        -- intros m. change (1 + m)%nat with (S m). run_glue Ef.
           rewrite exec_handleAppCommand, Er. reflexivity.
        -- reflexivity.
        -- reflexivity.
    + exists 1%nat. eexists. split; [|split].
      * intros m. change (1 + m)%nat with (S m). run_glue Ef. reflexivity.
      * reflexivity.
      * reflexivity.
Qed.

Lemma process_input_returns queued : forall w,
  exists c w1,
    (forall m, exec looper (c + m) (process_input queued) w = Done m w1 tt) /\
    polls w1 = polls w /\
    app w1 = app w.
Proof.
  induction queued as [|event rest IH]; intros w.
  - exists 0%nat, w. split; [|split]; try reflexivity.
    intros m. apply exec_ret.
  - cbn [process_input].
    destruct (onInputEvent (app w)) as [[]|] eqn:Ef.
    + destruct (AInputEvent_getType event =? AINPUT_EVENT_TYPE_MOTION) eqn:Et.
      * destruct (IH (emit (CallLog ANDROID_LOG_VERBOSE kLogTag
                              "Motion input event") w))
          as (c2 & w2 & H2 & Hp2 & Ha2).
        exists (2 + c2)%nat, w2. split; [|split]; [|exact Hp2|exact Ha2].
        intros m. change (2 + c2 + m)%nat with (S (S (c2 + m))). run_glue Ef.
        rewrite exec_handleInputEvent, Et. run_glue Ef. apply H2.
      * destruct (IH w) as (c2 & w2 & H2 & Hp2 & Ha2).
        exists (1 + c2)%nat, w2. split; [|split]; [|exact Hp2|exact Ha2].
        intros m. change (1 + c2 + m)%nat with (S (c2 + m)). run_glue Ef.
        rewrite exec_handleInputEvent, Et. run_glue Ef. apply H2.
    + destruct (IH w) as (c2 & w2 & H2 & Hp2 & Ha2).
      exists (1 + c2)%nat, w2. split; [|split]; [|exact Hp2|exact Ha2].
      intros m. change (1 + c2 + m)%nat with (S (c2 + m)). run_glue Ef.
      apply H2.
Qed.

Lemma dispatch_glue_returns source w :
  exists c w1,
    (forall m, exec looper (c + m) (dispatch glue_process source) w = Done m w1 tt) /\
    polls w1 = polls w /\
    destroyRequested (app w1)
    = (if delivers_destroy source then 1 else destroyRequested (app w)).
Proof.
  destruct source as [[cmd|queued]|]; cbn [dispatch glue_process delivers_destroy].
  - apply process_cmd_returns.
  - destruct (process_input_returns queued w) as (c & w1 & H & Hp & Ha).
    exists c, w1. rewrite Ha. auto.
  - exists 0%nat, w. split; [|split]; try reflexivity.
    intros m. apply exec_ret.
Qed.

End HandlerLaws.

(* ===================================================================== *)
(** * The two handlers *)
(* ===================================================================== *)

(** C1. For the window-available command (APP_CMD_INIT_WINDOW) and the
    window-unavailable command (APP_CMD_TERM_WINDOW) the command handler
    makes exactly one platform call, a log record of informational
    severity, and returns; the application handle and the poll count are
    left as they were. *)
Theorem handleAppCommand_recognized
  (looper : nat -> poll_result) (w : World) (fuel : nat) (cmd : Z) :
  cmd = APP_CMD_INIT_WINDOW \/ cmd = APP_CMD_TERM_WINDOW ->
  let w' := emit (CallLog ANDROID_LOG_INFO kLogTag (window_message cmd)) w in
  exec looper (S fuel) (handleAppCommand cmd) w = Done fuel w' tt /\
  exec looper 0 (handleAppCommand cmd) w = Running w /\
  trace w' = trace w ++ [CallLog ANDROID_LOG_INFO kLogTag (window_message cmd)] /\
  app w' = app w /\
  polls w' = polls w.
Proof.
  intros H w'. rewrite !exec_handleAppCommand.
  destruct H as [-> | ->]; repeat split; reflexivity.
Qed.

Lemma handleAppCommand_recognized_witness :
  let w' := emit (CallLog ANDROID_LOG_INFO kLogTag "Window terminated") boot in
  exec idle_looper 1 (handleAppCommand APP_CMD_TERM_WINDOW) boot = Done 0 w' tt /\
  exec idle_looper 0 (handleAppCommand APP_CMD_TERM_WINDOW) boot = Running boot /\
  trace w' = trace boot ++ [CallLog ANDROID_LOG_INFO kLogTag "Window terminated"] /\
  app w' = app boot /\
  polls w' = polls boot.
Proof.
  apply (handleAppCommand_recognized idle_looper boot 0 APP_CMD_TERM_WINDOW).
  right. reflexivity.
Defined.

(** C2. For every command value other than the two window commands the
    command handler makes no platform call at all and returns with the
    state untouched; and for every command value whatsoever the handler
    returns (the [else] branch is the [default:] of the switch). *)
Theorem handleAppCommand_unrecognized
  (looper : nat -> poll_result) (w : World) (fuel : nat) (cmd : Z) :
  cmd <> APP_CMD_INIT_WINDOW ->
  cmd <> APP_CMD_TERM_WINDOW ->
  exec looper fuel (handleAppCommand cmd) w = Done fuel w tt /\
  (forall any : Z,
      exists left w', exec looper (S fuel) (handleAppCommand any) w = Done left w' tt).
Proof.
  intros Hi Ht. split.
  - rewrite exec_handleAppCommand.
    destruct (Z.eqb_spec cmd APP_CMD_INIT_WINDOW); [contradiction|].
    destruct (Z.eqb_spec cmd APP_CMD_TERM_WINDOW); [contradiction|].
    reflexivity.
  - intros any. rewrite exec_handleAppCommand.
    destruct ((any =? APP_CMD_INIT_WINDOW) || (any =? APP_CMD_TERM_WINDOW));
      eauto.
Qed.

Lemma handleAppCommand_unrecognized_witness :
  exec idle_looper 0 (handleAppCommand APP_CMD_GAINED_FOCUS) boot = Done 0 boot tt /\
  (forall any : Z,
      exists left w',
        exec idle_looper 1 (handleAppCommand any) boot = Done left w' tt).
Proof.
  apply (handleAppCommand_unrecognized idle_looper boot 0 APP_CMD_GAINED_FOCUS).
  - discriminate.
  - discriminate.
Defined.

(** C3. For an input event whose type tag is motion the input handler
    makes exactly one platform call, a log record of verbose severity,
    and returns status 0. *)
Theorem handleInputEvent_motion
  (looper : nat -> poll_result) (w : World) (fuel : nat) (event : AInputEvent) :
  AInputEvent_getType event = AINPUT_EVENT_TYPE_MOTION ->
  let w' := emit (CallLog ANDROID_LOG_VERBOSE kLogTag "Motion input event") w in
  exec looper (S fuel) (handleInputEvent event) w = Done fuel w' 0 /\
  exec looper 0 (handleInputEvent event) w = Running w /\
  trace w' = trace w ++ [CallLog ANDROID_LOG_VERBOSE kLogTag "Motion input event"] /\
  app w' = app w /\
  polls w' = polls w.
Proof.
  intros H w'. rewrite !exec_handleInputEvent, H. repeat split; reflexivity.
Qed.

Lemma handleInputEvent_motion_witness :
  let event := mkInputEvent AINPUT_EVENT_TYPE_MOTION in
  let w' := emit (CallLog ANDROID_LOG_VERBOSE kLogTag "Motion input event") boot in
  exec idle_looper 1 (handleInputEvent event) boot = Done 0 w' 0 /\
  exec idle_looper 0 (handleInputEvent event) boot = Running boot /\
  trace w' = trace boot ++ [CallLog ANDROID_LOG_VERBOSE kLogTag "Motion input event"] /\
  app w' = app boot /\
  polls w' = polls boot.
Proof.
  apply (handleInputEvent_motion idle_looper boot 0
           (mkInputEvent AINPUT_EVENT_TYPE_MOTION)).
  reflexivity.
Defined.

(** C4. For an input event whose type tag is not motion the input handler
    makes no platform call and returns status 0 with the state untouched;
    hence the status is 0 for every input event. *)
Theorem handleInputEvent_other
  (looper : nat -> poll_result) (w : World) (fuel : nat) (event : AInputEvent) :
  AInputEvent_getType event <> AINPUT_EVENT_TYPE_MOTION ->
  exec looper fuel (handleInputEvent event) w = Done fuel w 0 /\
  (forall (any : AInputEvent) n left w' status,
      exec looper n (handleInputEvent any) w = Done left w' status ->
      status = 0) /\
  (forall any : AInputEvent,
      exists left w', exec looper (S fuel) (handleInputEvent any) w = Done left w' 0).
Proof.
  intros H. split; [|split].
  - rewrite exec_handleInputEvent.
    destruct (Z.eqb_spec (AInputEvent_getType event) AINPUT_EVENT_TYPE_MOTION);
      [contradiction|reflexivity].
  - intros any n left w' status. rewrite exec_handleInputEvent.
    destruct (AInputEvent_getType any =? AINPUT_EVENT_TYPE_MOTION).
    + destruct n; [discriminate|]. intros E. inversion E. reflexivity.
    + intros E. inversion E. reflexivity.
  - intros any. rewrite exec_handleInputEvent.
    destruct (AInputEvent_getType any =? AINPUT_EVENT_TYPE_MOTION); eauto.
Qed.

Lemma handleInputEvent_other_witness :
  exec idle_looper 0 (handleInputEvent (mkInputEvent AINPUT_EVENT_TYPE_KEY)) boot
  = Done 0 boot 0 /\
  (forall (any : AInputEvent) n left w' status,
      exec idle_looper n (handleInputEvent any) boot = Done left w' status ->
      status = 0) /\
  (forall any : AInputEvent,
      exists left w',
        exec idle_looper 1 (handleInputEvent any) boot = Done left w' 0).
Proof.
  apply (handleInputEvent_other idle_looper boot 0
           (mkInputEvent AINPUT_EVENT_TYPE_KEY)).
  discriminate.
Defined.

(* ===================================================================== *)
(** * The poll loop *)
(* ===================================================================== *)

(** C5. At any head of the poll loop: when the poll hands back an event
    (status not negative), its processing returns, and the flag then reads
    non-zero, the pump makes exactly two more platform calls, the read of
    the flag and one log record of informational severity, and returns.
    The final state is the state after processing plus that one record:
    the poll count does not move, and granting more steps changes
    nothing. *)
Theorem destroy_observed_after_event
  (process : android_poll_source -> itree pumpE unit)
  (looper : nat -> poll_result) (w : World) (n k : nat) (w1 : World) :
  0 <= poll_status (looper (polls w)) ->
  exec looper n (dispatch process (poll_source (looper (polls w))))
    (polled (poll_status (looper (polls w))) w) = Done k w1 tt ->
  destroyRequested (app w1) <> 0 ->
  let final :=
    emit (CallLog ANDROID_LOG_INFO kLogTag "Destroy requested, exiting") w1 in
  exec looper (n + 3) (drain_loop process) w = Done k final Return /\
  (forall more,
      exec looper (n + 3 + more) (pump_loop process) w = Done (k + more) final tt) /\
  interp_state (os_interp looper) (pump_loop process) w ≈ Ret (final, tt) /\
  trace final
  = trace w1 ++ [CallLog ANDROID_LOG_INFO kLogTag "Destroy requested, exiting"] /\
  polls final = polls w1 /\
  app final = app w1.
Proof.
  intros Hst Hrun Hflag final.
  assert (Hpump : forall more,
             exec looper (n + 3 + more) (pump_loop process) w
             = Done (k + more) final tt).
  { intros more.
    replace (n + 3 + more)%nat with (S (n + (2 + more))) by lia.
    apply (pump_loop_exit _ _ _ _ _ _ Hst Hrun Hflag). }
  split; [|split; [exact Hpump|split]].
  - replace (n + 3)%nat with (S (n + (2 + 0))) by lia.
    rewrite (drain_loop_exit _ _ _ _ _ _ Hst Hrun Hflag).
    rewrite Nat.add_0_r. reflexivity.
  - apply (exec_interp_state _ _ _ _ _ _ _ (Hpump 0%nat)).
  - repeat split.
Qed.

Lemma destroy_observed_after_event_witness :
  let w1 :=
    mkWorld (mkApp (Some Fn_handleAppCommand) (Some Fn_handleInputEvent) 1) 1
      [CallLog ANDROID_LOG_INFO kLogTag "Native loop started";
       CallPoll LOOPER_ID_MAIN] in
  let final :=
    emit (CallLog ANDROID_LOG_INFO kLogTag "Destroy requested, exiting") w1 in
  exec destroy_looper 5 (drain_loop glue_process) (started boot)
  = Done 0 final Return /\
  (forall more,
      exec destroy_looper (5 + more) (pump_loop glue_process) (started boot)
      = Done more final tt) /\
  interp_state (os_interp destroy_looper) (pump_loop glue_process) (started boot)
  ≈ Ret (final, tt) /\
  trace final
  = trace w1 ++ [CallLog ANDROID_LOG_INFO kLogTag "Destroy requested, exiting"] /\
  polls final = polls w1 /\
  app final = app w1.
Proof.
  intros w1.
  apply (destroy_observed_after_event glue_process destroy_looper
           (started boot) 2 0 w1).
  - vm_compute. discriminate.
  - reflexivity.
  - vm_compute. discriminate.
Defined.

(** C7. At any head of the poll loop: when the poll returns a negative
    status, whichever it is, the inner loop is left at once; the only
    thing that happened is the poll call itself (no log record, the
    application handle untouched), and the pump goes on exactly as the
    outer loop does from that state. *)
Theorem negative_poll_leaves_drain_loop
  (process : android_poll_source -> itree pumpE unit)
  (looper : nat -> poll_result) (w : World) :
  poll_status (looper (polls w)) < 0 ->
  let w' := polled (poll_status (looper (polls w))) w in
  (forall n, exec looper (S n) (drain_loop process) w = Done n w' Break) /\
  (forall n,
      exec looper (S (S n)) (pump_loop process) w
      = exec looper n (pump_loop process) w') /\
  trace w' = trace w ++ [CallPoll (poll_status (looper (polls w)))] /\
  app w' = app w /\
  polls w' = S (polls w).
Proof.
  intros H w'. repeat split.
  - intros n. apply drain_loop_negative. assumption.
  - intros n. apply pump_loop_negative. assumption.
Qed.

Lemma negative_poll_leaves_drain_loop_witness :
  let w' := polled ALOOPER_POLL_TIMEOUT boot in
  (forall n, exec idle_looper (S n) (drain_loop glue_process) boot = Done n w' Break) /\
  (forall n,
      exec idle_looper (S (S n)) (pump_loop glue_process) boot
      = exec idle_looper n (pump_loop glue_process) w') /\
  trace w' = trace boot ++ [CallPoll ALOOPER_POLL_TIMEOUT] /\
  app w' = app boot /\
  polls w' = S (polls boot).
Proof.
  apply (negative_poll_leaves_drain_loop glue_process idle_looper boot).
  reflexivity.
Defined.

(* ===================================================================== *)
(** * The entry point *)
(* ===================================================================== *)

(** C9. From entry, the first two platform calls store the two handlers
    and nothing has been logged or polled; the third call is the log
    record "Native loop started" of informational severity; the pump loop
    runs from the state so reached, and the call after the record is the
    first poll.  Every trace of a run from the entry point therefore
    carries this record ahead of everything else. *)
Theorem native_loop_started_first
  (process : android_poll_source -> itree pumpE unit)
  (looper : nat -> poll_result) (w : World) :
  exec looper 2 (android_main process) w
  = Running (set_app (installed (app w)) w) /\
  exec looper 3 (android_main process) w = Running (started w) /\
  trace (started w)
  = trace w ++ [CallLog ANDROID_LOG_INFO kLogTag "Native loop started"] /\
  polls (started w) = polls w /\
  (forall n,
      exec looper (3 + n) (android_main process) w
      = exec looper n (pump_loop process) (started w)) /\
  (forall n, exists rest,
      trace (state_of (exec looper (4 + n) (android_main process) w))
      = trace w
        ++ CallLog ANDROID_LOG_INFO kLogTag "Native loop started"
        :: CallPoll (poll_status (looper (polls w)))
        :: rest).
Proof.
  repeat split.
  - intros n. apply exec_android_main.
  - intros n. change (4 + n)%nat with (3 + S n)%nat.
    rewrite exec_android_main.
    assert (Hhead : exists t,
               exec looper (S n) (pump_loop process) (started w)
               = exec looper n t (polled (poll_status (looper (polls w))) (started w))).
    { eexists. cbn -[exec]. simpl exec at 1. reflexivity. }
    destruct Hhead as [t ->].
    destruct (exec_trace looper n t
                (polled (poll_status (looper (polls w))) (started w))) as [l Hl].
    exists l. rewrite Hl. cbn [trace polled started emit set_app].
    rewrite <- !app_assoc. reflexivity.
Qed.

Section GlueRuns.

Variable looper : nat -> poll_result.

Lemma polls_polled_times n : forall w,
    polls (polled_times looper n w) = (polls w + n)%nat.
Proof.
  induction n as [|n IH]; intros w; simpl.
  - lia.
  - rewrite IH. simpl. lia.
Qed.

Lemma app_polled_times n : forall w,
    app (polled_times looper n w) = app w.
Proof.
  induction n as [|n IH]; intros w; simpl; [reflexivity|].
  rewrite IH. reflexivity.
Qed.

(** Negative statuses in a row: one turn of the outer loop each. *)
Lemma pump_loop_skip_negative process n : forall w,
    (forall i, (i < n)%nat -> poll_status (looper (polls w + i)) < 0) ->
    forall m,
      exec looper (2 * n + m) (pump_loop process) w
      = exec looper m (pump_loop process) (polled_times looper n w).
Proof.
  induction n as [|n IH]; intros w Hneg m.
  - reflexivity.
  - replace (2 * S n + m)%nat with (S (S (2 * n + m))) by lia.
    rewrite pump_loop_negative.
    + cbn [polled_times]. apply IH. intros i Hi.
      cbn [polls polled].
      replace (S (polls w) + i)%nat with (polls w + S i)%nat by lia.
      apply Hneg. lia.
    + specialize (Hneg 0%nat). rewrite Nat.add_0_r in Hneg. apply Hneg. lia.
Qed.

Lemma dispatch_glue_done n source w k w1 :
  exec looper n (dispatch glue_process source) w = Done k w1 tt ->
  polls w1 = polls w /\
  destroyRequested (app w1)
  = (if delivers_destroy source then 1 else destroyRequested (app w)).
Proof.
  intros H.
  destruct (dispatch_glue_returns looper source w) as (c & w2 & H2 & Hp & Hf).
  destruct (exec_deterministic _ _ _ _ _ _ _ _ _ _ _ H (H2 0%nat)) as [-> _].
  auto.
Qed.

Hypothesis no_destroy : forall i, delivers_destroy (poll_source (looper i)) = false.

Lemma pump_loop_never_done n : forall w,
    destroyRequested (app w) = 0 ->
    exists w', exec looper n (pump_loop glue_process) w = Running w'.
Proof.
  induction n as [n IH] using lt_wf_ind. intros w Hflag.
  destruct n as [|F]; [eexists; reflexivity|].
  rewrite exec_pump_loop_S. cbv zeta.
  destruct (poll_status (looper (polls w)) >=? 0).
  - destruct (exec looper F _ _) as [K w2 []|w2] eqn:E; cbn [and_then];
      [|eexists; reflexivity].
    pose proof (exec_done_le _ _ _ _ _ _ _ E) as Hle.
    apply dispatch_glue_done in E. destruct E as [_ Hf].
    rewrite no_destroy in Hf. cbn [polled app] in Hf. rewrite Hflag in Hf.
    destruct K as [|K1]; [eexists; reflexivity|].
    rewrite Hf. cbn [Z.eqb].
    destruct K1 as [|K2]; [eexists; reflexivity|].
    apply IH; [lia|assumption].
  - destruct F as [|F1]; [eexists; reflexivity|].
    apply IH; [lia|assumption].
Qed.

Lemma pump_loop_turn w :
  destroyRequested (app w) = 0 ->
  exists c w1,
    (forall m,
        exec looper (c + m) (pump_loop glue_process) w
        = exec looper m (pump_loop glue_process) w1) /\
    polls w1 = S (polls w) /\
    destroyRequested (app w1) = 0.
Proof.
  intros Hflag.
  destruct (Z.ltb_spec (poll_status (looper (polls w))) 0) as [Hneg|Hpos].
  - exists 2%nat, (polled (poll_status (looper (polls w))) w).
    split; [|split]; [|reflexivity|assumption].
    intros m. apply pump_loop_negative. assumption.
  - destruct (dispatch_glue_returns looper (poll_source (looper (polls w)))
                (polled (poll_status (looper (polls w))) w))
      as (c & w1 & H & Hp & Hf).
    rewrite no_destroy in Hf. cbn [polled app] in Hf. rewrite Hflag in Hf.
    exists (c + 3)%nat, w1. split; [|split]; [|exact Hp|exact Hf].
    intros m.
    replace (c + 3 + m)%nat with (S (c + 0 + (2 + m))) by lia.
    apply (pump_loop_continue glue_process looper (c + 0) 0 w w1 Hpos (H 0%nat) Hf).
Qed.

Lemma pump_loop_polls_on N : forall w,
    destroyRequested (app w) = 0 ->
    exists c wN,
      (forall m,
          exec looper (c + m) (pump_loop glue_process) w
          = exec looper m (pump_loop glue_process) wN) /\
      polls wN = (polls w + N)%nat /\
      destroyRequested (app wN) = 0.
Proof.
  induction N as [|N IH]; intros w Hflag.
  - exists 0%nat, w. split; [|split]; [reflexivity|lia|assumption].
  - destruct (pump_loop_turn w Hflag) as (c1 & w1 & H1 & Hp1 & Hf1).
    destruct (IH w1 Hf1) as (c2 & w2 & H2 & Hp2 & Hf2).
    exists (c1 + c2)%nat, w2. split; [|split]; [|lia|assumption].
    intros m. rewrite <- Nat.add_assoc, H1. apply H2.
Qed.

End GlueRuns.

(** C10. The entry point returns only through the destroy branch: in the
    state it returns in, the flag is not 0 and the last thing that
    happened is the record "Destroy requested, exiting".  And when the
    flag is 0 at entry and nothing the looper hands back is the destroy
    command, the entry point never returns, however many steps it is
    given, while its poll count grows beyond every bound. *)
Theorem android_main_returns_only_on_destroy :
  (forall (process : android_poll_source -> itree pumpE unit)
          (looper : nat -> poll_result) (w : World) n left w',
      exec looper n (android_main process) w = Done left w' tt ->
      destroyRequested (app w') <> 0 /\
      exists w1,
        w' = emit (CallLog ANDROID_LOG_INFO kLogTag "Destroy requested, exiting") w1) /\
  (forall (looper : nat -> poll_result) (w : World),
      destroyRequested (app w) = 0 ->
      (forall i, delivers_destroy (poll_source (looper i)) = false) ->
      (forall n, exists w', exec looper n (android_main glue_process) w = Running w') /\
      (forall N, exists n w',
          exec looper n (android_main glue_process) w = Running w' /\
          polls w' = (polls w + N)%nat)).
Proof.
  split.
  - intros process looper w n left w' H.
    destruct n as [|[|[|n]]]; try discriminate H.
    change (S (S (S n))) with (3 + n)%nat in H.
    rewrite exec_android_main in H.
    apply pump_loop_done in H. destruct H as (w1 & Hf & ->).
    split; [exact Hf|]. exists w1. reflexivity.
  - intros looper w Hflag Hnone. split.
    + intros n. destruct n as [|[|[|n]]]; try (eexists; reflexivity).
      change (S (S (S n))) with (3 + n)%nat. rewrite exec_android_main.
      apply pump_loop_never_done; assumption.
    + intros N.
      destruct (pump_loop_polls_on looper Hnone N (started w) Hflag)
        as (c & wN & H & Hp & _).
      exists (3 + (c + 0))%nat, wN. split.
      * rewrite exec_android_main, H. reflexivity.
      * exact Hp.
Qed.

Lemma android_main_returns_only_on_destroy_witness :
  (forall n, exists w', exec idle_looper n (android_main glue_process) boot = Running w') /\
  (forall N, exists n w',
      exec idle_looper n (android_main glue_process) boot = Running w' /\
      polls w' = (polls boot + N)%nat).
Proof.
  apply (proj2 android_main_returns_only_on_destroy idle_looper boot).
  - reflexivity.
  - intros i. reflexivity.
Defined.

(** C6, counterexample.  Entered with the flag already set and a looper
    that has nothing queued, the pump never returns and keeps polling:
    after nine steps it has polled three times. *)
Lemma flag_set_at_entry_keeps_polling :
  destroyRequested (app flagged) <> 0 /\
  (forall n, exists w',
      exec idle_looper n (android_main glue_process) flagged = Running w') /\
  polls (state_of (exec idle_looper 9 (android_main glue_process) flagged)) = 3%nat /\
  ~ flag_stops_polling_claim.
Proof.
  assert (Hrun : forall n, exists w',
             exec idle_looper n (android_main glue_process) flagged = Running w').
  { intros n. destruct n as [|[|[|n]]]; try (eexists; reflexivity).
    change (S (S (S n))) with (3 + n)%nat. rewrite exec_android_main.
    apply pump_loop_idle. intros i. reflexivity. }
  split; [discriminate|]. split; [exact Hrun|]. split; [reflexivity|].
  intros claim.
  destruct (claim glue_process idle_looper flagged 0%nat) as (m & left & w' & Hd & _).
  - discriminate.
  - destruct (Hrun m) as [w'' Hr]. rewrite Hr in Hd. discriminate.
Qed.

Section QuietHeads.

Variable process : android_poll_source -> itree pumpE unit.
Variable looper : nat -> poll_result.

(** Turns that do not make the pump leave bring it back to the head of
    its outer loop. *)
Lemma quiet_heads_run fuel n : forall w wk,
    quiet_heads process looper fuel n w = Some wk ->
    exists c d, forall m,
      exec looper (c + m) (pump_loop process) w
      = exec looper (d + m) (pump_loop process) wk.
Proof.
  induction n as [|n IH]; intros w wk H; cbn [quiet_heads] in H.
  - inversion H; subst. exists 0%nat, 0%nat. reflexivity.
  - cbv zeta in H.
    destruct (Z.geb_spec (poll_status (looper (polls w))) 0) as [Hpos|Hneg].
    + destruct (exec looper fuel _ _) as [k w2 []|w2] eqn:E; [|discriminate].
      destruct (Z.eqb_spec (destroyRequested (app w2)) 0) as [Hflag|];
        [|discriminate].
      destruct (IH w2 wk H) as (c & d & Hc).
      exists (S (fuel + (2 + c))), (k + d)%nat. intros m.
      replace (S (fuel + (2 + c)) + m)%nat with (S (fuel + (2 + (c + m)))) by lia.
      rewrite (pump_loop_continue process looper fuel k w w2
                 ltac:(lia) E Hflag (c + m)%nat).
      replace (k + (c + m))%nat with (c + (k + m))%nat by lia.
      rewrite Hc. f_equal. lia.
    + destruct (IH _ wk H) as (c & d & Hc).
      exists (2 + c)%nat, d. intros m.
      change (2 + c + m)%nat with (S (S (c + m))).
      rewrite pump_loop_negative by exact Hneg. apply Hc.
Qed.

Lemma quiet_heads_negative fuel n : forall w,
    (forall i, (i < n)%nat -> poll_status (looper (polls w + i)%nat) < 0) ->
    quiet_heads process looper fuel n w = Some (polled_times looper n w).
Proof.
  induction n as [|n IH]; intros w Hneg; cbn [quiet_heads polled_times].
  - reflexivity.
  - cbv zeta.
    pose proof (Hneg 0%nat ltac:(lia)) as H0. rewrite Nat.add_0_r in H0.
    destruct (Z.geb_spec (poll_status (looper (polls w))) 0); [lia|].
    apply IH. intros i Hi. cbn [polls polled].
    replace (S (polls w) + i)%nat with (polls w + S i)%nat by lia.
    apply Hneg. lia.
Qed.

End QuietHeads.

(** C6, amended.  The flag is read only in the check that follows a
    drained event.  First part: entered in any state, whatever its flag,
    let the pump go through any number of turns that do not make it leave
    (negative poll statuses, drained events after whose processing the
    flag reads 0); when the next poll drains an event and the flag reads
    non-zero after its processing, whether that processing set it or it
    was set before, the pump writes its final record and returns, and no
    poll call follows.  Second part: the flag is not read at entry or
    after a negative poll status; through any number of negative statuses
    in a row the pump keeps polling, whatever the flag. *)
Theorem destroy_flag_read_only_after_event
  (process : android_poll_source -> itree pumpE unit)
  (looper : nat -> poll_result) (w : World) :
  (forall (fuel n : nat) (wk : World) (fuel' k : nat) (w1 : World),
      quiet_heads process looper fuel n (started w) = Some wk ->
      0 <= poll_status (looper (polls wk)) ->
      exec looper fuel' (dispatch process (poll_source (looper (polls wk))))
        (polled (poll_status (looper (polls wk))) wk) = Done k w1 tt ->
      destroyRequested (app w1) <> 0 ->
      let final :=
        emit (CallLog ANDROID_LOG_INFO kLogTag "Destroy requested, exiting") w1 in
      (exists c left,
          forall more,
            exec looper (c + more) (android_main process) w
            = Done (left + more) final tt) /\
      polls final = polls w1 /\
      trace final
      = trace w1 ++ [CallLog ANDROID_LOG_INFO kLogTag "Destroy requested, exiting"]) /\
  (forall n : nat,
      (forall i, (i < n)%nat -> poll_status (looper (polls w + i)%nat) < 0) ->
      let at_head := polled_times looper n (started w) in
      (forall fuel, quiet_heads process looper fuel n (started w) = Some at_head) /\
      (forall m,
          exec looper (3 + (2 * n + m)) (android_main process) w
          = exec looper m (pump_loop process) at_head) /\
      polls at_head = (polls w + n)%nat /\
      destroyRequested (app at_head) = destroyRequested (app w)).
Proof.
  split.
  - intros fuel n wk fuel' k w1 Hq Hst Hrun Hflag final.
    split; [|split; reflexivity].
    destruct (quiet_heads_run process looper fuel n _ _ Hq) as (c & d & Hc).
    exists (3 + (c + S (fuel' + 2)))%nat, (k + d)%nat. intros more.
    replace (3 + (c + S (fuel' + 2)) + more)%nat
      with (3 + (c + S (fuel' + (2 + more))))%nat by lia.
    rewrite exec_android_main, Hc.
    replace (d + S (fuel' + (2 + more)))%nat
      with (S (fuel' + (2 + (d + more)))) by lia.
    rewrite (pump_loop_exit process looper fuel' k wk w1 Hst Hrun Hflag (d + more)%nat).
    f_equal. lia.
  - intros n Hneg at_head. split; [|split; [|split]].
    + intros fuel. apply quiet_heads_negative. exact Hneg.
    + intros m. rewrite exec_android_main.
      apply pump_loop_skip_negative. exact Hneg.
    + unfold at_head. rewrite polls_polled_times. reflexivity.
    + unfold at_head. rewrite app_polled_times. reflexivity.
Qed.

Lemma destroy_flag_read_only_after_event_witness :
  (let w1 :=
     mkWorld (mkApp (Some Fn_handleAppCommand) (Some Fn_handleInputEvent) 1) 3
       [ CallLog ANDROID_LOG_INFO kLogTag "Native loop started";
         CallPoll LOOPER_ID_MAIN;
         CallLog ANDROID_LOG_INFO kLogTag "Window initialized";
         CallPoll LOOPER_ID_INPUT;
         CallLog ANDROID_LOG_VERBOSE kLogTag "Motion input event";
         CallPoll LOOPER_ID_MAIN ] in
   let final :=
     emit (CallLog ANDROID_LOG_INFO kLogTag "Destroy requested, exiting") w1 in
   (exists c left,
       forall more,
         exec (scripted scenario) (c + more) (android_main glue_process) boot
         = Done (left + more) final tt) /\
   polls final = polls w1 /\
   trace final
   = trace w1 ++ [CallLog ANDROID_LOG_INFO kLogTag "Destroy requested, exiting"]) /\
  (let at_head := polled_times late_key_looper 2 (started flagged) in
   (forall fuel,
       quiet_heads glue_process late_key_looper fuel 2 (started flagged)
       = Some at_head) /\
   (forall m,
       exec late_key_looper (3 + (2 * 2 + m)) (android_main glue_process) flagged
       = exec late_key_looper m (pump_loop glue_process) at_head) /\
   polls at_head = (polls flagged + 2)%nat /\
   destroyRequested (app at_head) = destroyRequested (app flagged)).
Proof.
  split.
  - apply (proj1 (destroy_flag_read_only_after_event glue_process
                    (scripted scenario) boot)
             2%nat 2%nat
             (mkWorld (mkApp (Some Fn_handleAppCommand)
                         (Some Fn_handleInputEvent) 0) 2
                [ CallLog ANDROID_LOG_INFO kLogTag "Native loop started";
                  CallPoll LOOPER_ID_MAIN;
                  CallLog ANDROID_LOG_INFO kLogTag "Window initialized";
                  CallPoll LOOPER_ID_INPUT;
                  CallLog ANDROID_LOG_VERBOSE kLogTag "Motion input event" ])
             2%nat 0%nat).
    + vm_compute. reflexivity.
    + vm_compute. discriminate.
    + vm_compute. reflexivity.
    + vm_compute. discriminate.
  - apply (proj2 (destroy_flag_read_only_after_event glue_process
                    late_key_looper flagged) 2%nat).
    intros i Hi. destruct i as [|[|i]]; [reflexivity|reflexivity|lia].
Defined.

(** C8, counterexample.  The run on the scenario returns after 18 steps
    with four log records, the first being the start-up record. *)
Lemma scenario_has_four_records :
  exec (scripted scenario) 18 (android_main glue_process) boot
  = Done 0 scenario_end tt /\
  severities (trace scenario_end)
  = [ANDROID_LOG_INFO; ANDROID_LOG_INFO; ANDROID_LOG_VERBOSE; ANDROID_LOG_INFO] /\
  List.length (severities (trace scenario_end)) <> 3%nat /\
  ~ scenario_three_records_claim.
Proof.
  assert (Hrun : exec (scripted scenario) 18 (android_main glue_process) boot
                 = Done 0 scenario_end tt) by (vm_compute; reflexivity).
  split; [exact Hrun|]. split; [reflexivity|]. split; [discriminate|].
  intros (n & left & w' & Hd & Hs).
  destruct (exec_deterministic _ _ _ _ _ _ _ _ _ _ _ Hd Hrun) as [-> _].
  discriminate Hs.
Qed.

(** C8, amended.  On the scenario the run of the entry point returns
    with exactly four log records, of severities informational (the
    start-up record), informational, verbose, informational; the last
    three are those of the three events, in order.  Exactly three poll
    calls were made, each followed by the record of its event, and the
    outcome is the same however many more steps are granted. *)
Theorem scenario_run :
  (forall more,
      exec (scripted scenario) (18 + more) (android_main glue_process) boot
      = Done more scenario_end tt) /\
  interp_state (os_interp (scripted scenario)) (android_main glue_process) boot
  ≈ Ret (scenario_end, tt) /\
  severities (trace scenario_end)
  = [ANDROID_LOG_INFO; ANDROID_LOG_INFO; ANDROID_LOG_VERBOSE; ANDROID_LOG_INFO] /\
  severities (skipn 1 (trace scenario_end))
  = [ANDROID_LOG_INFO; ANDROID_LOG_VERBOSE; ANDROID_LOG_INFO] /\
  polls scenario_end = 3%nat /\
  (forall n,
      (polls (state_of (exec (scripted scenario) n (android_main glue_process) boot))
       <= 3)%nat).
Proof.
  assert (Hrun : exec (scripted scenario) 18 (android_main glue_process) boot
                 = Done 0 scenario_end tt) by (vm_compute; reflexivity).
  split; [|split; [|split; [reflexivity|split; [reflexivity|split; [reflexivity|]]]]].
  - intros more. apply (exec_more _ _ _ _ _ _ _ more Hrun).
  - apply (exec_interp_state _ _ _ _ _ _ _ Hrun).
  - intros n. destruct (Nat.lt_ge_cases n 18) as [Hlt|Hge].
    + do 18 (destruct n as [|n]; [vm_compute; lia|]). lia.
    + replace n with (18 + (n - 18))%nat by lia.
      rewrite (exec_more _ _ _ _ _ _ _ (n - 18) Hrun). cbn. lia.
Qed.

(* ===================================================================== *)
(** * Rules of the judgement *)
(* ===================================================================== *)

Section HoldsRules.

Variable looper : nat -> poll_result.

Lemma holds_ret {R} (P : World -> Prop) (r : R) Q I :
  (forall w, P w -> Q r w) -> holds looper P (Ret r) Q I.
Proof.
  intros H n w Hw. rewrite exec_ret. auto.
Qed.

Lemma holds_trigger {T} (P : World -> Prop) (e : pumpE T) Q (I : World -> Prop) :
  (forall w, P w -> I w) ->
  (forall w, P w -> Q (snd (os_handle looper e w)) (fst (os_handle looper e w))) ->
  holds looper P (ITree.trigger e) Q I.
Proof.
  intros HI HQ n w Hw. destruct n as [|n].
  - simpl. auto.
  - rewrite exec_trigger. auto.
Qed.

Lemma holds_bind {A B} P (t : itree pumpE A) (k : A -> itree pumpE B) Q1 Q I :
  holds looper P t Q1 I ->
  (forall x, holds looper (Q1 x) (k x) Q I) ->
  holds looper P (ITree.bind t k) Q I.
Proof.
  intros Ht Hk n w Hw. rewrite exec_bind.
  specialize (Ht n w Hw).
  destruct (exec looper n t w) as [n' w' x|w']; cbn [and_then].
  - apply Hk. assumption.
  - assumption.
Qed.

Lemma holds_iter {J R} (Inv : J -> World -> Prop)
      (body : J -> itree pumpE (J + R)) Q (I : World -> Prop) :
  (forall j w, Inv j w -> I w) ->
  (forall j,
      holds looper (Inv j) (body j)
        (fun lr w => match lr with inl j' => Inv j' w | inr r => Q r w end) I) ->
  forall j, holds looper (Inv j) (ITree.iter body j) Q I.
Proof.
  intros HI Hbody j n. revert j.
  induction n as [n IH] using lt_wf_ind. intros j w Hw.
  rewrite exec_iter. specialize (Hbody j n w Hw).
  destruct (exec looper n (body j) w) as [n' w' [j'|r]|w'] eqn:E; cbn [and_then].
  - destruct n' as [|m]; [eauto|].
    apply exec_done_le in E. apply IH; [lia|assumption].
  - assumption.
  - assumption.
Qed.

Lemma holds_weaken {R} (P P' : World -> Prop) (t : itree pumpE R)
      (Q Q' : R -> World -> Prop) (I I' : World -> Prop) :
  holds looper P t Q I ->
  (forall w, P' w -> P w) ->
  (forall r w, Q r w -> Q' r w) ->
  (forall w, I w -> I' w) ->
  holds looper P' t Q' I'.
Proof.
  intros H HP HQ HI n w Hw. specialize (H n w (HP w Hw)).
  destruct (exec looper n t w); auto.
Qed.

(** A judgement with one and the same set of states throughout is an
    invariant of every state of the run. *)
Lemma holds_state_of {R} (I : World -> Prop) (t : itree pumpE R) :
  holds looper I t (fun _ => I) I <->
  (forall n w, I w -> I (state_of (exec looper n t w))).
Proof.
  split; intros H n w Hw; specialize (H n w Hw);
    destruct (exec looper n t w); assumption.
Qed.

End HoldsRules.

(* ===================================================================== *)
(** * What the pump leaves alone *)
(* ===================================================================== *)

Section HandleUntouched.

Variable process : android_poll_source -> itree pumpE unit.
Variable looper : nat -> poll_result.
Variable P : android_app -> Prop.

Hypothesis process_keeps : forall source, keeps_handle looper P (process source).

Lemma check_destroy_keeps_handle : keeps_handle looper P check_destroy.
Proof.
  unfold keeps_handle, check_destroy.
  apply holds_bind with (Q1 := fun _ w => P (app w)).
  - apply holds_trigger; auto.
  - intros d. destruct (negb (d =? 0)).
    + apply holds_bind with (Q1 := fun _ w => P (app w)).
      * apply holds_trigger; auto.
      * intros _. apply holds_ret. auto.
    + apply holds_ret. auto.
Qed.

Lemma drain_loop_keeps_handle : keeps_handle looper P (drain_loop process).
Proof.
  unfold keeps_handle, drain_loop.
  apply (holds_iter looper (fun _ w => P (app w))); [auto|].
  intros []. unfold drain_step, ALooper_pollOnce.
  apply holds_bind with (Q1 := fun _ w => P (app w)).
  - apply holds_trigger; auto.
  - intros p. destruct (poll_status p >=? 0).
    + apply holds_bind with (Q1 := fun _ w => P (app w)).
      * destruct (poll_source p) as [source|]; cbn [dispatch].
        -- apply process_keeps.
        -- apply holds_ret. auto.
      * intros _.
        eapply holds_weaken; [apply check_destroy_keeps_handle|auto|..|auto].
        intros [[]|e] w H; exact H.
    + apply holds_ret. auto.
Qed.

Lemma pump_loop_keeps_handle : keeps_handle looper P (pump_loop process).
Proof.
  unfold keeps_handle, pump_loop.
  apply (holds_iter looper (fun _ w => P (app w))); [auto|].
  intros []. unfold pump_step.
  apply holds_bind with (Q1 := fun _ w => P (app w)).
  - apply drain_loop_keeps_handle.
  - intros [|]; apply holds_ret; auto.
Qed.

End HandleUntouched.

(** X1. After its two stores at entry the entry point never writes the
    application handle again: whatever property of the handle the
    processing routine preserves, and which holds once both handlers are
    stored, holds at every later point of every run.  In particular the
    pump itself never clears or replaces a callback and never writes the
    destroy-requested flag. *)
Theorem android_main_writes_handle_only_at_entry
  (process : android_poll_source -> itree pumpE unit)
  (looper : nat -> poll_result) (P : android_app -> Prop) :
  (forall source n w,
      P (app w) -> P (app (state_of (exec looper n (process source) w)))) ->
  forall n w,
    P (installed (app w)) ->
    P (app (state_of (exec looper (2 + n) (android_main process) w))).
Proof.
  intros Hproc n w Hw.
  destruct n as [|n]; [exact Hw|].
  change (2 + S n)%nat with (3 + n)%nat. rewrite exec_android_main.
  apply (proj1 (holds_state_of looper (fun w => P (app w)) (pump_loop process))).
  - apply pump_loop_keeps_handle. intros source.
    apply (proj2 (holds_state_of looper (fun w => P (app w)) (process source))).
    intros m w1. apply Hproc.
  - exact Hw.
Qed.

Lemma android_main_writes_handle_only_at_entry_witness :
  app (state_of (exec null_source_looper (2 + 9) (android_main (fun _ => Ret tt)) boot))
  = installed (app boot).
Proof.
  apply (android_main_writes_handle_only_at_entry (fun _ => Ret tt)
           null_source_looper (fun a => a = installed (app boot))).
  - intros source n w H. destruct n; exact H.
  - reflexivity.
Defined.

(* ===================================================================== *)
(** * What the pump writes *)
(* ===================================================================== *)

Section TraceGrowth.

Variable looper : nat -> poll_result.
Variable ok : os_call -> bool.
Variable t0 : list os_call.

Lemma grown_by_start w : trace w = t0 -> grown_by ok t0 w.
Proof.
  intros H. exists []. rewrite app_nil_r. auto.
Qed.

Lemma grown_by_emit c w :
  ok c = true -> grown_by ok t0 w -> grown_by ok t0 (emit c w).
Proof.
  intros Hc (l & Hl & Hok). exists (l ++ [c]). split.
  - cbn [emit trace]. rewrite Hl, app_assoc. reflexivity.
  - rewrite forallb_app, Hok. cbn. rewrite Hc. reflexivity.
Qed.

Lemma grown_by_set_app a w : grown_by ok t0 w -> grown_by ok t0 (set_app a w).
Proof. intros H. exact H. Qed.

Hypothesis ok_poll : forall st, ok (CallPoll st) = true.

Lemma grown_by_polled st w : grown_by ok t0 w -> grown_by ok t0 (polled st w).
Proof.
  intros (l & Hl & Hok). exists (l ++ [CallPoll st]). split.
  - cbn [polled trace]. rewrite Hl, app_assoc. reflexivity.
  - rewrite forallb_app, Hok. cbn. rewrite ok_poll. reflexivity.
Qed.

(** Loads and stores of the handle leave the trace alone. *)
Lemma holds_silent {T} (e : pumpE T) :
  (forall w, trace (fst (os_handle looper e w)) = trace w) ->
  holds looper (grown_by ok t0) (ITree.trigger e)
    (fun _ => grown_by ok t0) (grown_by ok t0).
Proof.
  intros H. apply holds_trigger; [auto|].
  intros w (l & Hl & Hok). exists l. rewrite H. auto.
Qed.

Lemma holds_log prio tag msg :
  ok (CallLog prio tag msg) = true ->
  holds looper (grown_by ok t0) (__android_log_print prio tag msg)
    (fun _ => grown_by ok t0) (grown_by ok t0).
Proof.
  intros H. apply holds_trigger; [auto|].
  intros w Hw. apply grown_by_emit; assumption.
Qed.

Section PumpGrowth.

Variable process : android_poll_source -> itree pumpE unit.

Hypothesis process_grows :
  forall source,
    holds looper (grown_by ok t0) (process source)
      (fun _ => grown_by ok t0) (grown_by ok t0).

Lemma check_destroy_grows :
  holds looper (grown_by ok t0) check_destroy
    (fun e w => match e with
                | inl _ => grown_by ok t0 w
                | inr Break => grown_by ok t0 w
                | inr Return => left_by_destroy ok t0 w
                end)
    (grown_by ok t0).
Proof.
  unfold check_destroy.
  apply holds_bind with (Q1 := fun _ => grown_by ok t0).
  - apply holds_silent. reflexivity.
  - intros d. destruct (negb (d =? 0)).
    + apply holds_bind with (Q1 := fun _ => left_by_destroy ok t0).
      * apply holds_trigger; [auto|].
        intros w (l & Hl & Hok). exists l. split; [|assumption].
        cbn [os_handle fst emit trace]. rewrite Hl, app_assoc. reflexivity.
      * intros _. apply holds_ret. auto.
    + apply holds_ret. auto.
Qed.

Lemma drain_loop_grows :
  holds looper (grown_by ok t0) (drain_loop process)
    (fun e w => match e with
                | Break => grown_by ok t0 w
                | Return => left_by_destroy ok t0 w
                end)
    (grown_by ok t0).
Proof.
  unfold drain_loop.
  apply (holds_iter looper (fun _ => grown_by ok t0)); [auto|].
  intros []. unfold drain_step, ALooper_pollOnce.
  apply holds_bind with (Q1 := fun _ => grown_by ok t0).
  - apply holds_trigger; [auto|].
    intros w Hw. cbn [os_handle fst]. apply grown_by_polled. assumption.
  - intros p. destruct (poll_status p >=? 0).
    + apply holds_bind with (Q1 := fun _ => grown_by ok t0).
      * destruct (poll_source p) as [source|]; cbn [dispatch].
        -- apply process_grows.
        -- apply holds_ret. auto.
      * intros _. eapply holds_weaken; [apply check_destroy_grows|auto|..|auto].
        intros [[]|[|]] w H; exact H.
    + apply holds_ret. auto.
Qed.

Lemma pump_loop_grows :
  holds looper (grown_by ok t0) (pump_loop process)
    (fun _ => left_by_destroy ok t0) (grown_by ok t0).
Proof.
  unfold pump_loop.
  apply (holds_iter looper (fun _ => grown_by ok t0)); [auto|].
  intros []. unfold pump_step.
  eapply holds_bind; [apply drain_loop_grows|].
  intros [|]; apply holds_ret; auto.
Qed.

Hypothesis ok_started :
  ok (CallLog ANDROID_LOG_INFO kLogTag "Native loop started") = true.

Lemma android_main_grows :
  holds looper (grown_by ok t0) (android_main process)
    (fun _ => left_by_destroy ok t0) (grown_by ok t0).
Proof.
  unfold android_main.
  apply holds_bind with (Q1 := fun _ => grown_by ok t0);
    [apply holds_silent; reflexivity|intros _].
  apply holds_bind with (Q1 := fun _ => grown_by ok t0);
    [apply holds_silent; reflexivity|intros _].
  apply holds_bind with (Q1 := fun _ => grown_by ok t0);
    [apply holds_log; exact ok_started|intros _].
  apply pump_loop_grows.
Qed.

End PumpGrowth.

(** The glue's routines write what the handlers write. *)
Hypothesis ok_window :
  forall cmd, ok (CallLog ANDROID_LOG_INFO kLogTag (window_message cmd)) = true.
Hypothesis ok_motion :
  ok (CallLog ANDROID_LOG_VERBOSE kLogTag "Motion input event") = true.

Lemma handleAppCommand_grows cmd :
  holds looper (grown_by ok t0) (handleAppCommand cmd)
    (fun _ => grown_by ok t0) (grown_by ok t0).
Proof.
  unfold handleAppCommand.
  destruct (cmd =? APP_CMD_INIT_WINDOW) eqn:Ei.
  - apply holds_log. specialize (ok_window cmd).
    unfold window_message in ok_window. rewrite Ei in ok_window. exact ok_window.
  - destruct (cmd =? APP_CMD_TERM_WINDOW).
    + apply holds_log. specialize (ok_window cmd).
      unfold window_message in ok_window. rewrite Ei in ok_window. exact ok_window.
    + apply holds_ret. auto.
Qed.

Lemma handleInputEvent_grows event :
  holds looper (grown_by ok t0) (handleInputEvent event)
    (fun _ => grown_by ok t0) (grown_by ok t0).
Proof.
  unfold handleInputEvent.
  apply holds_bind with (Q1 := fun _ => grown_by ok t0).
  - destruct (AInputEvent_getType event =? AINPUT_EVENT_TYPE_MOTION).
    + apply holds_log. exact ok_motion.
    + apply holds_ret. auto.
  - intros _. apply holds_ret. auto.
Qed.

Lemma glue_process_grows source :
  holds looper (grown_by ok t0) (glue_process source)
    (fun _ => grown_by ok t0) (grown_by ok t0).
Proof.
  destruct source as [cmd|queued]; cbn [glue_process].
  - unfold process_cmd.
    apply holds_bind with (Q1 := fun _ => grown_by ok t0).
    + destruct (cmd =? APP_CMD_DESTROY).
      * apply holds_silent. reflexivity.
      * apply holds_ret. auto.
    + intros _. apply holds_bind with (Q1 := fun _ => grown_by ok t0).
      * apply holds_silent. reflexivity.
      * intros [[]|]; [apply handleAppCommand_grows|apply holds_ret; auto].
  - induction queued as [|event rest IH]; cbn [process_input].
    + apply holds_ret. auto.
    + apply holds_bind with (Q1 := fun _ => grown_by ok t0).
      * apply holds_silent. reflexivity.
      * intros f. apply holds_bind with (Q1 := fun _ => grown_by ok t0).
        -- destruct f as [[]|].
           ++ apply holds_bind with (Q1 := fun _ => grown_by ok t0).
              ** apply handleInputEvent_grows.
              ** intros _. apply holds_ret. auto.
           ++ apply holds_ret. auto.
        -- intros _. exact IH.
Qed.

End TraceGrowth.

(** X2. Every log record that a run of the entry point writes, whether
    from the pump itself or from a handler called back by the platform,
    carries the tag "arcade-native" and has informational or verbose
    severity; this holds at every point of every run, returned or not. *)
Theorem android_main_writes_own_records
  (looper : nat -> poll_result) (w : World) (n : nat) :
  exists l,
    trace (state_of (exec looper n (android_main glue_process) w)) = trace w ++ l /\
    forallb is_own_record l = true.
Proof.
  assert (Hwin : forall cmd,
             is_own_record
               (CallLog ANDROID_LOG_INFO kLogTag (window_message cmd)) = true).
  { intros cmd. unfold window_message.
    destruct (cmd =? APP_CMD_INIT_WINDOW); reflexivity. }
  pose proof (android_main_grows looper is_own_record (trace w)
                (fun _ => eq_refl) glue_process
                (glue_process_grows looper _ (trace w) Hwin eq_refl)
                eq_refl n w (grown_by_start _ _ w eq_refl)) as H.
  destruct (exec looper n (android_main glue_process) w) as [k w' []|w'];
    cbn [state_of].
  - destruct H as (l & Hl & Hok). exists (l ++ [destroy_record]).
    split; [exact Hl|]. rewrite forallb_app, Hok. reflexivity.
  - exact H.
Qed.

(** X3. The record "Destroy requested, exiting" is written exactly when
    the entry point returns, and only then: a run that has not returned
    has not written it, and a run that has returned has written it once,
    as the last thing it did. *)
Theorem destroy_record_written_once_at_return
  (looper : nat -> poll_result) (w : World) (n : nat) :
  match exec looper n (android_main glue_process) w with
  | Done _ w' _ =>
      exists l,
        trace w'
        = trace w ++ l
          ++ [CallLog ANDROID_LOG_INFO kLogTag "Destroy requested, exiting"] /\
        existsb is_destroy_record l = false
  | Running w' =>
      exists l, trace w' = trace w ++ l /\ existsb is_destroy_record l = false
  end.
Proof.
  assert (Hneg : forall l,
             forallb (fun c => negb (is_destroy_record c)) l = true ->
             existsb is_destroy_record l = false).
  { induction l as [|c l IH]; [reflexivity|]. cbn.
    destruct (is_destroy_record c); cbn; [discriminate|exact IH]. }
  assert (Hwin : forall cmd,
             negb (is_destroy_record
                     (CallLog ANDROID_LOG_INFO kLogTag (window_message cmd))) = true).
  { intros cmd. unfold window_message.
    destruct (cmd =? APP_CMD_INIT_WINDOW); reflexivity. }
  pose proof (android_main_grows looper (fun c => negb (is_destroy_record c))
                (trace w) (fun _ => eq_refl) glue_process
                (glue_process_grows looper _ (trace w) Hwin eq_refl)
                eq_refl n w (grown_by_start _ _ w eq_refl)) as H.
  destruct (exec looper n (android_main glue_process) w) as [k w' []|w'].
  - destruct H as (l & Hl & Hok). exists l. auto.
  - destruct H as (l & Hl & Hok). exists l. auto.
Qed.

(* ===================================================================== *)
(** * The trace as a function of what the looper hands back *)
(* ===================================================================== *)

Section Turns.

Variable looper : nat -> poll_result.

(** Runs straight-line code of the glue on a state given field by field. *)
Ltac run_call :=
  repeat first
    [ rewrite exec_bind
    | rewrite exec_trigger
    | rewrite exec_ret
    | rewrite exec_handleAppCommand
    | rewrite exec_handleInputEvent
    | progress cbn [and_then os_handle fst snd set_app emit app polls trace
                    onAppCmd onInputEvent destroyRequested
                    call_cmd_callback call_input_callback] ].

Lemma process_input_effect queued : forall d p tr,
    exists c, forall m,
      exec looper (c + m) (process_input queued)
        (mkWorld (mkApp (Some Fn_handleAppCommand) (Some Fn_handleInputEvent) d) p tr)
      = Done m
          (mkWorld (mkApp (Some Fn_handleAppCommand) (Some Fn_handleInputEvent) d) p
             (tr ++ input_records queued)) tt.
Proof.
  induction queued as [|event rest IH]; intros d p tr.
  - exists 0%nat. intros m. cbn [input_records flat_map process_input].
    rewrite app_nil_r. apply exec_ret.
  - cbn [process_input input_records flat_map].
    destruct (AInputEvent_getType event =? AINPUT_EVENT_TYPE_MOTION) eqn:Et.
    + destruct (IH d p (tr ++ [CallLog ANDROID_LOG_VERBOSE kLogTag
                                 "Motion input event"])) as [c Hc].
      exists (2 + c)%nat. intros m. change (2 + c + m)%nat with (S (S (c + m))).
      run_call. rewrite Et. run_call. rewrite Hc, <- app_assoc. reflexivity.
    + destruct (IH d p tr) as [c Hc].
      exists (1 + c)%nat. intros m. change (1 + c + m)%nat with (S (c + m)).
      run_call. rewrite Et. run_call. rewrite Hc. reflexivity.
Qed.

(** With the program's handlers installed, processing a poll source
    returns in the state [processed]. *)
Lemma dispatch_glue_effect source w :
  handlers_installed (app w) ->
  exists c, forall m,
    exec looper (c + m) (dispatch glue_process source) w
    = Done m (processed source w) tt.
Proof.
  destruct w as [[f g d] p tr]. intros [Hf Hg]. cbn in Hf, Hg. subst f g.
  destruct source as [[cmd|queued]|]; unfold processed;
    cbn [dispatch glue_process delivers_destroy source_records
         app polls trace onAppCmd onInputEvent destroyRequested].
  - unfold process_cmd, cmd_records.
    destruct (cmd =? APP_CMD_DESTROY) eqn:Ed.
    + apply Z.eqb_eq in Ed. subst cmd. exists 2%nat. intros m.
      change (2 + m)%nat with (S (S m)). run_call.
      change ((APP_CMD_DESTROY =? APP_CMD_INIT_WINDOW)
              || (APP_CMD_DESTROY =? APP_CMD_TERM_WINDOW)) with false.
      cbv beta iota. rewrite app_nil_r. reflexivity.
    + destruct ((cmd =? APP_CMD_INIT_WINDOW) || (cmd =? APP_CMD_TERM_WINDOW)) eqn:Er.
      * exists 2%nat. intros m. change (2 + m)%nat with (S (S m)).
        run_call. rewrite Er. reflexivity.
      * exists 1%nat. intros m. change (1 + m)%nat with (S m).
        run_call. rewrite Er, app_nil_r. reflexivity.
  - apply process_input_effect.
  - exists 0%nat. intros m. rewrite app_nil_r. apply exec_ret.
Qed.

Lemma turn_polls w : polls (turn looper w) = S (polls w).
Proof.
  unfold turn. destruct (poll_status (looper (polls w)) >=? 0); reflexivity.
Qed.

Lemma turn_trace w :
  trace (turn looper w) = trace w ++ turn_records (looper (polls w)).
Proof.
  unfold turn, turn_records.
  destruct (poll_status (looper (polls w)) >=? 0); cbn [trace processed polled].
  - rewrite <- app_assoc. reflexivity.
  - reflexivity.
Qed.

Lemma turn_handlers w :
  handlers_installed (app w) -> handlers_installed (app (turn looper w)).
Proof.
  unfold turn. destruct (poll_status (looper (polls w)) >=? 0); intros H; exact H.
Qed.

Lemma turn_flag w :
  turn_exits (destroyRequested (app w)) (looper (polls w)) = false ->
  destroyRequested (app (turn looper w)) = destroyRequested (app w).
Proof.
  unfold turn, turn_exits.
  destruct (poll_status (looper (polls w)) >=? 0); [|reflexivity].
  cbn [andb processed polled app destroyRequested].
  destruct (delivers_destroy (poll_source (looper (polls w)))); [|reflexivity].
  rewrite orb_true_r. discriminate.
Qed.

(** A turn that does not leave the pump brings it back to the head of
    the outer loop in the state [turn]. *)
Lemma pump_loop_quiet_turn w :
  handlers_installed (app w) ->
  turn_exits (destroyRequested (app w)) (looper (polls w)) = false ->
  exists c,
    (0 < c)%nat /\
    forall m,
      exec looper (c + m) (pump_loop glue_process) w
      = exec looper m (pump_loop glue_process) (turn looper w).
Proof.
  intros Hh Hq. pose proof (turn_flag w Hq) as Hflag.
  unfold turn in *. unfold turn_exits in Hq.
  destruct (Z.geb_spec (poll_status (looper (polls w))) 0) as [Hpos|Hneg].
  - cbn [andb] in Hq. apply orb_false_elim in Hq. destruct Hq as [Hz _].
    apply negb_false_iff, Z.eqb_eq in Hz.
    destruct (dispatch_glue_effect (poll_source (looper (polls w)))
                (polled (poll_status (looper (polls w))) w) Hh) as [c Hc].
    exists (c + 3)%nat. split; [lia|]. intros m.
    replace (c + 3 + m)%nat with (S (c + 0 + (2 + m))) by lia.
    apply (pump_loop_continue glue_process looper (c + 0) 0 w _ ltac:(lia) (Hc 0%nat)).
    rewrite Hflag. exact Hz.
  - exists 2%nat. split; [lia|]. intros m.
    apply pump_loop_negative. lia.
Qed.

(** A turn that leaves the pump. *)
Lemma pump_loop_exit_turn w :
  handlers_installed (app w) ->
  turn_exits (destroyRequested (app w)) (looper (polls w)) = true ->
  exists c, forall m,
    exec looper (c + m) (pump_loop glue_process) w
    = Done m (emit destroy_record (turn looper w)) tt.
Proof.
  intros Hh Hx. unfold turn. unfold turn_exits in Hx.
  apply andb_prop in Hx. destruct Hx as [Hst Hx]. rewrite Hst.
  apply Z.geb_le in Hst.
  destruct (dispatch_glue_effect (poll_source (looper (polls w)))
              (polled (poll_status (looper (polls w))) w) Hh) as [c Hc].
  exists (c + 3)%nat. intros m.
  replace (c + 3 + m)%nat with (S (c + 0 + (2 + m))) by lia.
  apply (pump_loop_exit glue_process looper (c + 0) 0 w _ Hst (Hc 0%nat)).
  cbn [processed polled app destroyRequested].
  destruct (delivers_destroy (poll_source (looper (polls w)))); [discriminate|].
  rewrite orb_false_r in Hx. apply negb_true_iff, Z.eqb_neq in Hx. exact Hx.
Qed.

Lemma upcoming_S from n :
  upcoming looper from (S n) = looper from :: upcoming looper (S from) n.
Proof. reflexivity. Qed.

Lemma upcoming_snoc from n :
  upcoming looper from (S n) = upcoming looper from n ++ [looper (from + n)%nat].
Proof.
  unfold upcoming. rewrite seq_S, map_app. reflexivity.
Qed.

(** [n] turns in a row none of which leaves the pump. *)
Lemma pump_loop_quiet_turns n : forall w,
    handlers_installed (app w) ->
    quiet_turns (destroyRequested (app w)) (upcoming looper (polls w) n) = true ->
    (exists c, forall m,
        exec looper (c + m) (pump_loop glue_process) w
        = exec looper m (pump_loop glue_process) (turns looper n w)) /\
    handlers_installed (app (turns looper n w)) /\
    destroyRequested (app (turns looper n w)) = destroyRequested (app w) /\
    polls (turns looper n w) = (polls w + n)%nat /\
    trace (turns looper n w)
    = trace w ++ flat_map turn_records (upcoming looper (polls w) n).
Proof.
  induction n as [|n IH]; intros w Hh Hq.
  - cbn [turns upcoming seq List.map flat_map]. rewrite app_nil_r.
    repeat split; try exact (proj1 Hh); try exact (proj2 Hh); try lia.
    exists 0%nat. reflexivity.
  - rewrite upcoming_S in Hq. cbn [quiet_turns forallb] in Hq.
    apply andb_prop in Hq. destruct Hq as [Hq1 Hq].
    apply negb_true_iff in Hq1. fold (quiet_turns (destroyRequested (app w))) in Hq.
    destruct (pump_loop_quiet_turn w Hh Hq1) as (c1 & _ & Hc1).
    rewrite <- (turn_flag w Hq1), <- turn_polls in Hq.
    destruct (IH (turn looper w) (turn_handlers w Hh) Hq)
      as ((c2 & Hc2) & Hh2 & Hf2 & Hp2 & Ht2).
    cbn [turns]. split; [|split; [|split; [|split]]].
    + exists (c1 + c2)%nat. intros m. rewrite <- Nat.add_assoc, Hc1. apply Hc2.
    + exact Hh2.
    + rewrite Hf2. apply turn_flag. exact Hq1.
    + rewrite Hp2, turn_polls. lia.
    + rewrite Ht2, turn_trace, turn_polls, upcoming_S.
      cbn [flat_map]. rewrite <- app_assoc. reflexivity.
Qed.

Lemma quiet_turns_upto flag n : forall from,
    (forall i, (i < n)%nat -> turn_exits flag (looper (from + i)%nat) = false) ->
    quiet_turns flag (upcoming looper from n) = true.
Proof.
  induction n as [|n IH]; intros from H; [reflexivity|].
  rewrite upcoming_S. cbn [quiet_turns forallb].
  rewrite <- (Nat.add_0_r from) at 1. rewrite H by lia. cbn [negb andb].
  apply IH. intros i Hi.
  replace (S from + i)%nat with (from + S i)%nat by lia. apply H. lia.
Qed.

Lemma first_true (f : nat -> bool) k :
  f k = true ->
  exists k0, f k0 = true /\ forall i, (i < k0)%nat -> f i = false.
Proof.
  induction k as [k IH] using lt_wf_ind. intros Hk.
  destruct (forallb (fun i => negb (f i)) (seq 0 k)) eqn:E.
  - exists k. split; [exact Hk|]. intros i Hi.
    rewrite forallb_forall in E. specialize (E i).
    rewrite in_seq in E. apply negb_true_iff. apply E. lia.
  - assert (Hex : exists i, (i < k)%nat /\ f i = true).
    { destruct (existsb f (seq 0 k)) eqn:Ex.
      - apply existsb_exists in Ex. destruct Ex as (i & Hin & Hi).
        apply in_seq in Hin. exists i. split; [lia|exact Hi].
      - exfalso. rewrite <- not_true_iff_false in E. apply E.
        apply forallb_forall. intros i Hin. apply negb_true_iff.
        destruct (f i) eqn:Efi; [|reflexivity].
        rewrite <- not_true_iff_false in Ex. exfalso. apply Ex.
        apply existsb_exists. exists i. auto. }
    destruct Hex as (i & Hi & Hfi). apply (IH i Hi Hfi).
Qed.

(** If the pump returns, some turn left it. *)
Lemma pump_loop_done_exits n : forall w left w',
    handlers_installed (app w) ->
    exec looper n (pump_loop glue_process) w = Done left w' tt ->
    exists k,
      turn_exits (destroyRequested (app w)) (looper (polls w + k)%nat) = true.
Proof.
  induction n as [n IH] using lt_wf_ind. intros w left w' Hh Hd.
  destruct (turn_exits (destroyRequested (app w)) (looper (polls w))) eqn:Ex.
  - exists 0%nat. rewrite Nat.add_0_r. exact Ex.
  - destruct (pump_loop_quiet_turn w Hh Ex) as (c & Hc0 & Hc).
    destruct (Nat.lt_ge_cases n c) as [Hlt|Hge].
    + exfalso. apply (exec_more _ _ _ _ _ _ _ (c - n)) in Hd.
      replace (n + (c - n))%nat with (c + 0)%nat in Hd by lia.
      rewrite Hc in Hd. discriminate Hd.
    + replace n with (c + (n - c))%nat in Hd by lia. rewrite Hc in Hd.
      apply IH in Hd; [|lia|apply turn_handlers; exact Hh].
      destruct Hd as [k Hk]. exists (S k).
      rewrite (turn_flag w Ex), turn_polls in Hk.
      replace (polls w + S k)%nat with (S (polls w) + k)%nat by lia. exact Hk.
Qed.

End Turns.

Section Runs.

Variable looper : nat -> poll_result.

Lemma installed_app a :
  handlers_installed a -> a = installed a.
Proof.
  destruct a as [f g d]. intros [Hf Hg]. cbn in Hf, Hg. subst. reflexivity.
Qed.

(** Quiet turns followed by a turn that leaves, from a state with the
    handlers installed. *)
Lemma pump_loop_exit_run n w :
  handlers_installed (app w) ->
  quiet_turns (destroyRequested (app w)) (upcoming looper (polls w) n) = true ->
  turn_exits (destroyRequested (app w)) (looper (polls w + n)%nat) = true ->
  exists c final,
    (forall m,
        exec looper (c + m) (pump_loop glue_process) w = Done m final tt) /\
    trace final
    = trace w ++ flat_map turn_records (upcoming looper (polls w) (S n))
      ++ [destroy_record] /\
    polls final = (polls w + n + 1)%nat /\
    app final
    = mkApp (Some Fn_handleAppCommand) (Some Fn_handleInputEvent)
        (if delivers_destroy (poll_source (looper (polls w + n)%nat)) then 1
         else destroyRequested (app w)).
Proof.
  intros Hh Hq Hx.
  destruct (pump_loop_quiet_turns looper n w Hh Hq)
    as ((c1 & Hc1) & Hhn & Hfn & Hpn & Htn).
  rewrite <- Hfn, <- Hpn in Hx.
  destruct (pump_loop_exit_turn looper _ Hhn Hx) as (c2 & Hc2).
  exists (c1 + c2)%nat, (emit destroy_record (turn looper (turns looper n w))).
  split; [|split; [|split]].
  - intros m. rewrite <- Nat.add_assoc, Hc1. apply Hc2.
  - cbn [emit trace]. rewrite turn_trace, Htn, Hpn, upcoming_snoc, flat_map_app.
    cbn [flat_map]. rewrite app_nil_r, <- !app_assoc. reflexivity.
  - cbn [emit polls]. rewrite turn_polls, Hpn. lia.
  - cbn [emit app]. unfold turn. unfold turn_exits in Hx.
    apply andb_prop in Hx. destruct Hx as [Hst _]. rewrite Hst.
    cbn [processed polled app]. destruct Hhn as [Hf Hg].
    rewrite Hf, Hg, Hfn, Hpn. reflexivity.
Qed.

End Runs.

(** X4. As long as no turn makes the pump leave, the trace is the
    start-up record followed, turn by turn and in the order of the poll
    calls, by each poll call and the records of what it drained: nothing
    for a negative status, a null source or an unrecognized command, one
    informational record for a window command, one verbose record per
    motion event of an input batch.  After [n] such turns the pump is at
    the head of its loop with [n] polls made, both handlers installed and
    the flag as it was. *)
Theorem quiet_turns_trace (looper : nat -> poll_result) (w : World) (n : nat) :
  quiet_turns (destroyRequested (app w)) (upcoming looper (polls w) n) = true ->
  exists c wn,
    (forall m,
        exec looper (c + m) (android_main glue_process) w
        = exec looper m (pump_loop glue_process) wn) /\
    trace wn
    = trace w
      ++ CallLog ANDROID_LOG_INFO kLogTag "Native loop started"
      :: flat_map turn_records (upcoming looper (polls w) n) /\
    polls wn = (polls w + n)%nat /\
    app wn = installed (app w).
Proof.
  intros Hq.
  destruct (pump_loop_quiet_turns looper n (started w)
              (conj eq_refl eq_refl) Hq)
    as ((c & Hc) & Hh & Hf & Hp & Ht).
  exists (3 + c)%nat, (turns looper n (started w)). split; [|split; [|split]].
  - intros m. change (3 + c + m)%nat with (3 + (c + m))%nat.
    rewrite exec_android_main. apply Hc.
  - rewrite Ht. cbn [started emit set_app trace polls].
    rewrite <- app_assoc. reflexivity.
  - exact Hp.
  - rewrite (installed_app _ Hh). unfold installed. rewrite Hf. reflexivity.
Qed.

Lemma quiet_turns_trace_witness :
  exists c wn,
    (forall m,
        exec session_looper (c + m) (android_main glue_process) boot
        = exec session_looper m (pump_loop glue_process) wn) /\
    trace wn
    = trace boot
      ++ CallLog ANDROID_LOG_INFO kLogTag "Native loop started"
      :: flat_map turn_records (upcoming session_looper (polls boot) 3) /\
    polls wn = (polls boot + 3)%nat /\
    app wn = installed (app boot).
Proof.
  apply (quiet_turns_trace session_looper boot 3).
  vm_compute. reflexivity.
Defined.

(** X5. When [n] turns that do not make the pump leave are followed by
    one that does (it drains something while the flag is set, or it drains
    the destroy command), the entry point returns after exactly [n + 1]
    poll calls, and its whole trace is the start-up record, the polls and
    records of the [n + 1] turns in order, and the record "Destroy
    requested, exiting".  Both handlers are still installed, and the flag
    is 1 if the last turn drained the destroy command and unchanged
    otherwise. *)
Theorem exit_turn_trace (looper : nat -> poll_result) (w : World) (n : nat) :
  quiet_turns (destroyRequested (app w)) (upcoming looper (polls w) n) = true ->
  turn_exits (destroyRequested (app w)) (looper (polls w + n)%nat) = true ->
  exists c final,
    (forall m,
        exec looper (c + m) (android_main glue_process) w = Done m final tt) /\
    trace final
    = trace w
      ++ CallLog ANDROID_LOG_INFO kLogTag "Native loop started"
      :: flat_map turn_records (upcoming looper (polls w) (S n))
      ++ [CallLog ANDROID_LOG_INFO kLogTag "Destroy requested, exiting"] /\
    polls final = (polls w + n + 1)%nat /\
    app final
    = mkApp (Some Fn_handleAppCommand) (Some Fn_handleInputEvent)
        (if delivers_destroy (poll_source (looper (polls w + n)%nat)) then 1
         else destroyRequested (app w)).
Proof.
  intros Hq Hx.
  destruct (pump_loop_exit_run looper n (started w) (conj eq_refl eq_refl) Hq Hx)
    as (c & final & Hc & Ht & Hp & Ha).
  exists (3 + c)%nat, final. split; [|split; [|split]].
  - intros m. change (3 + c + m)%nat with (3 + (c + m))%nat.
    rewrite exec_android_main. apply Hc.
  - rewrite Ht. cbn [started emit set_app trace polls].
    rewrite <- app_assoc. reflexivity.
  - exact Hp.
  - exact Ha.
Qed.

Lemma exit_turn_trace_witness :
  exists c final,
    (forall m,
        exec session_looper (c + m) (android_main glue_process) boot
        = Done m final tt) /\
    trace final
    = trace boot
      ++ CallLog ANDROID_LOG_INFO kLogTag "Native loop started"
      :: flat_map turn_records (upcoming session_looper (polls boot) 4)
      ++ [CallLog ANDROID_LOG_INFO kLogTag "Destroy requested, exiting"] /\
    polls final = (polls boot + 3 + 1)%nat /\
    app final
    = mkApp (Some Fn_handleAppCommand) (Some Fn_handleInputEvent)
        (if delivers_destroy (poll_source (session_looper (polls boot + 3)%nat))
         then 1 else destroyRequested (app boot)).
Proof.
  apply (exit_turn_trace session_looper boot 3).
  - vm_compute. reflexivity.
  - vm_compute. reflexivity.
Defined.

(** X6. The entry point returns if and only if some poll call drains
    something (status not negative) at a moment when either the flag was
    already set at entry or the drained command is the destroy command.
    Without such a poll it runs forever, whatever else is drained. *)
Theorem android_main_returns_iff (looper : nat -> poll_result) (w : World) :
  (exists n left w',
      exec looper n (android_main glue_process) w = Done left w' tt) <->
  (exists k,
      turn_exits (destroyRequested (app w)) (looper (polls w + k)%nat) = true).
Proof.
  split.
  - intros (n & left & w' & Hd).
    destruct n as [|[|[|n]]]; try discriminate Hd.
    change (S (S (S n))) with (3 + n)%nat in Hd.
    rewrite exec_android_main in Hd.
    apply pump_loop_done_exits in Hd; [exact Hd|split; reflexivity].
  - intros (k & Hk).
    destruct (first_true
                (fun i => turn_exits (destroyRequested (app w))
                            (looper (polls w + i)%nat)) k Hk)
      as (k0 & Hk0 & Hbefore).
    destruct (pump_loop_exit_run looper k0 (started w) (conj eq_refl eq_refl)
                (quiet_turns_upto looper _ k0 (polls w) Hbefore) Hk0)
      as (c & final & Hc & _).
    exists (3 + (c + 0))%nat, 0%nat, final.
    rewrite exec_android_main. apply Hc.
Qed.

(** X7. A poll call that reports an event but hands back no poll source
    (status not negative, null [source]) processes nothing, yet the flag
    is still tested after it: with the flag clear the pump is back at the
    head of its loop with only the poll recorded, and with the flag set it
    writes its final record and returns. *)
Theorem null_source_still_tests_flag
  (process : android_poll_source -> itree pumpE unit)
  (looper : nat -> poll_result) (w : World) (m : nat) :
  0 <= poll_status (looper (polls w)) ->
  poll_source (looper (polls w)) = None ->
  let w' := polled (poll_status (looper (polls w))) w in
  exec looper (3 + m) (pump_loop process) w
  = if destroyRequested (app w) =? 0 then
      exec looper m (pump_loop process) w'
    else
      Done m
        (emit (CallLog ANDROID_LOG_INFO kLogTag "Destroy requested, exiting") w')
        tt.
Proof.
  intros Hst Hsrc w'.
  assert (Hrun : exec looper 0 (dispatch process (poll_source (looper (polls w)))) w'
                 = Done 0 w' tt).
  { rewrite Hsrc. reflexivity. }
  destruct (Z.eqb_spec (destroyRequested (app w)) 0) as [Hflag|Hflag].
  - apply (pump_loop_continue process looper 0 0 w w' Hst Hrun Hflag m).
  - apply (pump_loop_exit process looper 0 0 w w' Hst Hrun Hflag m).
Qed.

Lemma null_source_still_tests_flag_witness :
  exec null_source_looper (3 + 0) (pump_loop glue_process) flagged
  = Done 0
      (emit (CallLog ANDROID_LOG_INFO kLogTag "Destroy requested, exiting")
         (polled 0 flagged))
      tt.
Proof.
  apply (null_source_still_tests_flag glue_process null_source_looper flagged 0).
  - vm_compute. discriminate.
  - reflexivity.
Defined.
